(** * Impact reconciliation and report synthesis of the Coalesce impact action

    A shallow embedding of the GitHub action's main script
    ([src/unnamed/part_000]) and of its YAML helper ([src/yml-parser.js]),
    with the properties of the reconciliation engine proved about it.

    Conventions of the embedding:
    - JavaScript values that come from outside (lineage service records, YAML
      documents) are values of [JsVal]; a property that is missing reads as
      [JUndefined], as in JavaScript.
    - Strings are Rocq strings of 8-bit characters.  [toLowerCase] folds the
      letters A-Z only and [trim] removes the ASCII white space characters:
      the Unicode part of both operations is outside the model.
    - Numbers are integers ([Z]); their decimal rendering is the one of
      JavaScript for integers below 10^21.
    - A JavaScript [Set] of strings is a [gset string]; an object used as a
      dictionary whose entries are enumerated ([Object.keys],
      [Object.entries]) is the list of its entries in insertion order.  An
      object that is only written and read by key ([modelNameToFileMap]) is
      a finite map of its own properties, with the one inherited accessor,
      [__proto__], written out in the two operations.
    - A [try]/[catch] block is a computation in [option]: [None] is a thrown
      exception, which the handler turns into the fallback value.
    - The platform pieces the script calls but does not define ([yaml.load],
      the WHATWG [URL] class, [git show]) are interfaces (type classes); the
      properties hold for every implementation, and a small sample instance
      of each serves to evaluate the model on concrete inputs. *)

From Stdlib Require Import ZArith Ascii.
From stdpp Require Import base option list gmap sets strings pretty.

Local Set Warnings "-register-all,-clear-no-such-hyp".

(** ** JavaScript values *)

Inductive JsVal : Type :=
  | JUndefined
  | JNull
  | JBool (b : bool)
  | JNum (n : Z)
  | JStr (s : string)
  | JArr (items : list JsVal)
  | JObj (fields : list (string * JsVal)).

(** [Boolean(v)]: the falsy values are undefined, null, false, 0 and the
    empty string. *)
Definition truthy (v : JsVal) : bool :=
  match v with
  | JUndefined | JNull => false
  | JBool b => b
  | JNum n => negb (n =? 0)%Z
  | JStr s => negb (String.eqb s "")
  | JArr _ | JObj _ => true
  end.

(** [a || b] on values. *)
Definition js_or (a b : JsVal) : JsVal := if truthy a then a else b.

(** [Array.prototype.join]. *)
Fixpoint join (sep : string) (parts : list string) : string :=
  match parts with
  | [] => ""
  | [p] => p
  | p :: rest => p +:+ sep +:+ join sep rest
  end.

(** [String(v)], the conversion a template literal applies to [${v}]. *)
Fixpoint js_toString (v : JsVal) : string :=
  match v with
  | JUndefined => "undefined"
  | JNull => "null"
  | JBool true => "true"
  | JBool false => "false"
  | JNum n => pretty n
  | JStr s => s
  | JArr items =>
      join ","
        ((fix elems (l : list JsVal) : list string :=
            match l with
            | [] => []
            | JUndefined :: l' | JNull :: l' => "" :: elems l'
            | x :: l' => js_toString x :: elems l'
            end) items)
  | JObj _ => "[object Object]"
  end.

(** Own-property lookup of an object literal. *)
Fixpoint assoc (p : string) (fields : list (string * JsVal)) : JsVal :=
  match fields with
  | [] => JUndefined
  | (k, v) :: rest => if String.eqb k p then v else assoc p rest
  end.

(** [v.p] for the property names the scripts read ([name], [columns],
    [operation], ...): a [TypeError] on undefined and null, the own property
    of an object, undefined on the other values (none of these names is a
    property of a string, a number, a boolean or an array). *)
Definition getProp (v : JsVal) (p : string) : option JsVal :=
  match v with
  | JUndefined | JNull => None
  | JObj fields => Some (assoc p fields)
  | _ => Some JUndefined
  end.

(** ** Strings *)

Definition dquote : ascii := ascii_of_nat 34.
Definition squote : ascii := ascii_of_nat 39.
Definition backtick : ascii := ascii_of_nat 96.

Definition lowerChar (c : ascii) : ascii :=
  let n := nat_of_ascii c in
  if (65 <=? n)%nat && (n <=? 90)%nat then ascii_of_nat (n + 32) else c.

(** [s.toLowerCase()]. *)
Fixpoint toLowerCase (s : string) : string :=
  match s with
  | "" => ""
  | String c s' => String (lowerChar c) (toLowerCase s')
  end.

(** [s.startsWith(t)]. *)
Fixpoint startsWith (s t : string) : bool :=
  match t, s with
  | "", _ => true
  | String _ _, "" => false
  | String b t', String a s' => if Ascii.eqb a b then startsWith s' t' else false
  end.

(** [s.includes(t)]: [t] occurs in [s] at some position. *)
Fixpoint includes (s t : string) : bool :=
  startsWith s t ||
  match s with
  | "" => false
  | String _ s' => includes s' t
  end.

(** [s.endsWith(t)]. *)
Definition endsWith (s t : string) : bool :=
  startsWith (String.rev s) (String.rev t).

Definition isQuote (c : ascii) : bool :=
  Ascii.eqb c backtick || Ascii.eqb c dquote || Ascii.eqb c squote.

(** [s.replace] of every backtick, double quote and single quote by the
    empty string (the global pattern of the script). *)
Fixpoint stripQuotes (s : string) : string :=
  match s with
  | "" => ""
  | String c s' => if isQuote c then stripQuotes s' else String c (stripQuotes s')
  end.

Fixpoint trimStart (s : string) : string :=
  match s with
  | "" => ""
  | String c s' => if Ascii.is_space c then trimStart s' else s
  end.

(** [s.trim()]. *)
Definition trim (s : string) : string :=
  String.rev (trimStart (String.rev (trimStart s))).

(** [s.split(',')]: the pieces between the commas; never the empty list. *)
Fixpoint splitComma (s : string) : list string :=
  match s with
  | "" => [""]
  | String c s' =>
      if Ascii.eqb c ","%char then "" :: splitComma s'
      else match splitComma s' with
           | [] => [String c ""]
           | piece :: pieces => String c piece :: pieces
           end
  end.

(** ** Impact records *)

(** A record of the asset-level impact query.  Every field is whatever the
    lineage service sent; a field the service left out is [JUndefined]. *)
Record ImpactRecord : Type := {
  ir_name : JsVal;
  ir_connection_id : JsVal;
  ir_asset_name : JsVal;
  ir_asset_group : JsVal;
  ir_redirect_id : JsVal;
  ir_is_transform : JsVal
}.

(** The record [getColumnLevelImpactAnalysis] pushes for a relevant field. *)
Record ColumnImpactRecord : Type := {
  ci_table_name : JsVal;
  ci_column_name : JsVal;
  ci_column_id : JsVal;
  ci_data_type : JsVal;
  ci_table_id : JsVal;
  ci_redirect_id : JsVal;
  ci_entity : JsVal;
  ci_connection_id : JsVal;
  ci_asset_name : JsVal;
  ci_flow : JsVal;
  ci_depth : JsVal;
  ci_impact_type : JsVal;
  ci_asset_group : JsVal
}.

(** [`${item?.name}-${item?.connection_id}-${item?.asset_name}`] *)
Definition uniqueKey (item : ImpactRecord) : string :=
  js_toString (ir_name item) +:+ "-" +:+
  js_toString (ir_connection_id item) +:+ "-" +:+
  js_toString (ir_asset_name item).

(** [`${item?.table_name}-${item?.column_name}-${item?.connection_id}`] *)
Definition columnUniqueKey (item : ColumnImpactRecord) : string :=
  js_toString (ci_table_name item) +:+ "-" +:+
  js_toString (ci_column_name item) +:+ "-" +:+
  js_toString (ci_connection_id item).

(** The tuples the data model names as identity keys. *)
Definition identity (item : ImpactRecord) : JsVal * JsVal * JsVal :=
  (ir_name item, ir_connection_id item, ir_asset_name item).

Definition columnIdentity (item : ColumnImpactRecord) : JsVal * JsVal * JsVal :=
  (ci_table_name item, ci_column_name item, ci_connection_id item).

(** ** Reconciliation: precedence of direct over indirect, deduplication *)

Section ByKey.
Context {A : Type} (key : A → string).

(** The filter callback of [dedup] with its [seen] set threaded through:
    an item passes when its key is new, and the key is then recorded. *)
Fixpoint dedupFrom (seen : gset string) (arr : list A) : list A :=
  match arr with
  | [] => []
  | item :: rest =>
      if decide (key item ∈ seen) then dedupFrom seen rest
      else item :: dedupFrom ({[key item]} ∪ seen) rest
  end.

Definition dedupBy (arr : list A) : list A := dedupFrom ∅ arr.

(** [indirect.filter(item => !directKeys.has(key(item)))] with
    [directKeys = new Set(direct.map(key))]. *)
Definition withoutDirect (direct indirect : list A) : list A :=
  let directKeys : gset string := list_to_set (key <$> direct) in
  filter (λ item, key item ∉ directKeys) indirect.
End ByKey.

Definition dedup : list ImpactRecord → list ImpactRecord := dedupBy uniqueKey.
Definition columnDedup : list ColumnImpactRecord → list ColumnImpactRecord :=
  dedupBy columnUniqueKey.

(** [fileImpacts[filePath]] *)
Record FileImpactSet : Type := {
  fi_direct : list ImpactRecord;
  fi_indirect : list ImpactRecord;
  fi_taskName : option string
}.

(** [columnImpacts[filePath]] *)
Record ColumnImpactSet : Type := {
  cs_direct : list ColumnImpactRecord;
  cs_indirect : list ColumnImpactRecord;
  cs_taskName : option string;
  cs_changedColumns : list JsVal
}.

(** The three loops over [Object.keys(fileImpacts)]: the first removes the
    direct keys from [indirect], the second deduplicates both lists. *)
Definition fileRemoveDirect (impacts : FileImpactSet) : FileImpactSet :=
  {| fi_direct := fi_direct impacts;
     fi_indirect := withoutDirect uniqueKey (fi_direct impacts) (fi_indirect impacts);
     fi_taskName := fi_taskName impacts |}.

Definition fileDedup (impacts : FileImpactSet) : FileImpactSet :=
  {| fi_direct := dedup (fi_direct impacts);
     fi_indirect := dedup (fi_indirect impacts);
     fi_taskName := fi_taskName impacts |}.

Definition columnRemoveDirect (impacts : ColumnImpactSet) : ColumnImpactSet :=
  {| cs_direct := cs_direct impacts;
     cs_indirect :=
       withoutDirect columnUniqueKey (cs_direct impacts) (cs_indirect impacts);
     cs_taskName := cs_taskName impacts;
     cs_changedColumns := cs_changedColumns impacts |}.

Definition columnSetDedup (impacts : ColumnImpactSet) : ColumnImpactSet :=
  {| cs_direct := columnDedup (cs_direct impacts);
     cs_indirect := columnDedup (cs_indirect impacts);
     cs_taskName := cs_taskName impacts;
     cs_changedColumns := cs_changedColumns impacts |}.

Definition onEntries {V : Type} (f : V → V) (entries : list (string * V)) :
    list (string * V) :=
  (λ entry, (entry.1, f entry.2)) <$> entries.

Definition reconcileFileImpacts (fileImpacts : list (string * FileImpactSet)) :
    list (string * FileImpactSet) :=
  onEntries fileDedup (onEntries fileRemoveDirect fileImpacts).

Definition reconcileColumnImpacts (columnImpacts : list (string * ColumnImpactSet)) :
    list (string * ColumnImpactSet) :=
  onEntries columnSetDedup (onEntries columnRemoveDirect columnImpacts).

(** ** Column matching ([getColumnLevelImpactAnalysis], the [some] callback) *)

(** One changed column against one lineage field.  [field_name] is
    [field.name] ([None] when the service sent none) and [changedCol] a
    changed column name; both are strings, the type on which the script
    calls [toLowerCase]. *)
Definition matchesColumn (field_name : option string) (changedCol : string) : bool :=
  let fieldName :=
    match field_name with
    | Some n => if String.eqb n "" then "" else toLowerCase n
    | None => ""
    end in
  let changedColName := toLowerCase changedCol in
  if String.eqb fieldName changedColName then true
  else if includes fieldName changedColName || includes changedColName fieldName then true
  else
    let unquotedFieldName := stripQuotes fieldName in
    let unquotedChangedCol := stripQuotes changedColName in
    if String.eqb unquotedFieldName unquotedChangedCol then true
    else false.

(** [changedColumns.some(changedCol => ...)] *)
Definition isImpacted (field_name : option string) (changedColumns : list string) : bool :=
  existsb (matchesColumn field_name) changedColumns.

(** The relevance rule in the words of the specification: both names are
    lower-cased and stripped of quote characters, and then compared for
    equality or containment either way. *)
Definition specRelevant (fieldName changedCol : string) : bool :=
  let f := stripQuotes (toLowerCase fieldName) in
  let c := stripQuotes (toLowerCase changedCol) in
  String.eqb f c || includes f c || includes c f.

(** A field and a table of the column-level response. *)
Record LineageField : Type := {
  lf_name : option string;
  lf_id : JsVal;
  lf_data_type : JsVal
}.

Record LineageTable : Type := {
  lt_name : JsVal;
  lt_id : JsVal;
  lt_redirect_id : JsVal;
  lt_entity : JsVal;
  lt_connection_id : JsVal;
  lt_asset_name : JsVal;
  lt_flow : JsVal;
  lt_depth : JsVal;
  lt_asset_group : JsVal;
  lt_fields : list LineageField
}.

Definition nameValue (name : option string) : JsVal :=
  match name with Some n => JStr n | None => JUndefined end.

Definition columnImpactOf (table : LineageTable) (field : LineageField) :
    ColumnImpactRecord :=
  {| ci_table_name := lt_name table;
     ci_column_name := nameValue (lf_name field);
     ci_column_id := lf_id field;
     ci_data_type := lf_data_type field;
     ci_table_id := lt_id table;
     ci_redirect_id := lt_redirect_id table;
     ci_entity := lt_entity table;
     ci_connection_id := lt_connection_id table;
     ci_asset_name := lt_asset_name table;
     ci_flow := lt_flow table;
     ci_depth := lt_depth table;
     ci_impact_type := JStr "Column Referenced";
     ci_asset_group := lt_asset_group table |}.

(** The two nested [forEach] loops over the tables of a response and their
    fields: one record per field that matches a changed column. *)
Definition columnImpactsOf (tables : list LineageTable) (changedColumns : list string) :
    list ColumnImpactRecord :=
  table ← tables;
  columnImpactOf table <$>
    filter (λ field, isImpacted (lf_name field) changedColumns) (lt_fields table).

(** ** Output options ([parseConfigurableKeys]) *)

Record OutputOptions : Type := {
  showDirectColumnCount : bool;
  showIndirectColumnCount : bool;
  showDirectAssetCount : bool;
  showIndirectAssetCount : bool;
  showDirectColumnList : bool;
  showIndirectColumnList : bool;
  showDirectAssetList : bool;
  showIndirectAssetList : bool;
  showYmlColumnChanges : bool
}.

Definition allEnabled : OutputOptions :=
  {| showDirectColumnCount := true; showIndirectColumnCount := true;
     showDirectAssetCount := true; showIndirectAssetCount := true;
     showDirectColumnList := true; showIndirectColumnList := true;
     showDirectAssetList := true; showIndirectAssetList := true;
     showYmlColumnChanges := true |}.

Definition allDisabled : OutputOptions :=
  {| showDirectColumnCount := false; showIndirectColumnCount := false;
     showDirectAssetCount := false; showIndirectAssetCount := false;
     showDirectColumnList := false; showIndirectColumnList := false;
     showDirectAssetList := false; showIndirectAssetList := false;
     showYmlColumnChanges := false |}.

(** [keysString.split(',').map(key => key.trim().toLowerCase())] *)
Definition optionKeys (keysString : string) : list string :=
  (λ key, toLowerCase (trim key)) <$> splitComma keysString.

(** [keys.includes(k)] *)
Definition hasKey (keys : list string) (k : string) : bool := bool_decide (k ∈ keys).

Definition parseConfigurableKeys (keysString : JsVal) : OutputOptions :=
  match keysString with
  | JStr s =>
      if String.eqb s "" then allEnabled
      else
        let keys := optionKeys s in
        {| showDirectColumnCount := hasKey keys "direct_column_count";
           showIndirectColumnCount := hasKey keys "indirect_column_count";
           showDirectAssetCount := hasKey keys "direct_asset_count";
           showIndirectAssetCount := hasKey keys "indirect_asset_count";
           showDirectColumnList := hasKey keys "direct_column_list";
           showIndirectColumnList := hasKey keys "indirect_column_list";
           showDirectAssetList := hasKey keys "direct_asset_list";
           showIndirectAssetList := hasKey keys "indirect_asset_list";
           showYmlColumnChanges := hasKey keys "yml_column_changes" |}
  | _ => allEnabled
  end.

(** The option keys the action recognizes. *)
Definition recognizedKeys : list string :=
  [ "direct_column_count"; "indirect_column_count"; "direct_asset_count";
    "indirect_asset_count"; "direct_column_list"; "indirect_column_list";
    "direct_asset_list"; "indirect_asset_list"; "yml_column_changes" ].

(** An input string contains no recognized key when none of its entries,
    trimmed and lower-cased, is one. *)
Definition noRecognizedKey (s : string) : Prop :=
  Forall (λ k, k ∉ recognizedKeys) (optionKeys s).

(** The input is absent: not a string, or the empty string that the action
    substitutes for a missing input. *)
Definition absentKeys (keysString : JsVal) : Prop :=
  match keysString with
  | JStr s => s = ""
  | _ => True
  end.

(** ** URL resolver ([constructItemUrl], [constructColumnUrl]) *)

(** The part of the WHATWG [URL] class the resolver uses: the constructor
    ([None] when it throws on a malformed base), the [pathname] setter and
    [toString]. *)
Class UrlApi : Type := {
  URL : Type;
  URL_new : string → option URL;
  URL_setPathname : URL → string → URL;
  URL_toString : URL → string
}.

(** [v === s] for a string literal [s]. *)
Definition isString (v : JsVal) (s : string) : bool :=
  match v with
  | JStr t => String.eqb t s
  | _ => false
  end.

Definition transformationPath (redirect_id : JsVal) : string :=
  "/observe/pipeline/transformation/" +:+ js_toString redirect_id +:+ "/run".
Definition taskPath (redirect_id : JsVal) : string :=
  "/observe/pipeline/task/" +:+ js_toString redirect_id +:+ "/run".
Definition worksheetPath (redirect_id : JsVal) : string :=
  "/observe/report/worksheet/" +:+ js_toString redirect_id +:+ "/overview".
Definition measuresPath (redirect_id : JsVal) : string :=
  "/observe/data/" +:+ js_toString redirect_id +:+ "/measures".

Section Resolver.
Context `{UrlApi}.

(** [url.pathname = path; return url.toString()] *)
Definition withPath (url : URL) (path : string) : string :=
  URL_toString (URL_setPathname url path).

(** What the resolver does once the record passed the identifier check. *)
Definition routeItem (item : ImpactRecord) (url : URL) : string :=
  if isString (ir_asset_group item) "pipeline" then
    if truthy (ir_is_transform item)
    then withPath url (transformationPath (ir_redirect_id item))
    else withPath url (taskPath (ir_redirect_id item))
  else if isString (ir_asset_group item) "report" then
    withPath url (worksheetPath (ir_redirect_id item))
  else if isString (ir_asset_group item) "data" then
    withPath url (measuresPath (ir_redirect_id item))
  else "#".

(** The items the callers pass are elements of the impact lists, which
    hold no null (they went through [filter(Boolean)]): the [!item] half
    of the first guard never fires, the [!baseUrl] half is the test for
    the empty string. *)
Definition constructItemUrl (item : ImpactRecord) (baseUrl : string) : string :=
  if String.eqb baseUrl "" then "#"
  else
    match URL_new baseUrl with
    | None => "#"
    | Some url =>
        if negb (truthy (ir_connection_id item)) || negb (truthy (ir_redirect_id item))
        then "#"
        else routeItem item url
    end.

(** A column record has no [is_transform] field: the test on it reads
    undefined and the pipeline case always takes the task template. *)
Definition constructColumnUrl (columnItem : ColumnImpactRecord) (baseUrl : string) :
    string :=
  if String.eqb baseUrl "" then "#"
  else
    match URL_new baseUrl with
    | None => "#"
    | Some url =>
        if isString (ci_asset_group columnItem) "pipeline" then
          if truthy JUndefined
          then withPath url (transformationPath (ci_redirect_id columnItem))
          else withPath url (taskPath (ci_redirect_id columnItem))
        else if isString (ci_asset_group columnItem) "data" then
          withPath url (measuresPath (ci_redirect_id columnItem))
        else if negb (truthy (ci_connection_id columnItem))
                || negb (truthy (ci_redirect_id columnItem))
        then "#"
        else if truthy (ci_redirect_id columnItem)
        then withPath url (taskPath (ci_redirect_id columnItem))
        else "#"
    end.

(** The asset-level resolver in the words of the specification: the
    placeholder when the record lacks both identifiers, the template of
    the asset group otherwise. *)
Definition specItemUrl (item : ImpactRecord) (baseUrl : string) : string :=
  if String.eqb baseUrl "" then "#"
  else
    match URL_new baseUrl with
    | None => "#"
    | Some url =>
        if negb (truthy (ir_connection_id item)) && negb (truthy (ir_redirect_id item))
        then "#"
        else routeItem item url
    end.
End Resolver.

(** A small instance of the URL interface for evaluating the resolver on
    concrete inputs: absolute http and https addresses with a host and a
    path, no query and no fragment. *)
Record SimpleUrl : Type := { su_origin : string; su_pathname : string }.

Fixpoint dropChars (n : nat) (s : string) : string :=
  match n, s with
  | O, _ => s
  | S _, "" => ""
  | S n', String _ s' => dropChars n' s'
  end.

Fixpoint hostAndPath (s : string) : string * string :=
  match s with
  | "" => ("", "/")
  | String c s' =>
      if Ascii.eqb c "/"%char then ("", s)
      else let '(host, path) := hostAndPath s' in (String c host, path)
  end.

Definition simpleUrlOf (scheme rest : string) : option SimpleUrl :=
  let '(host, path) := hostAndPath rest in
  if String.eqb host "" then None
  else Some {| su_origin := scheme +:+ host; su_pathname := path |}.

Definition simpleUrlNew (s : string) : option SimpleUrl :=
  if startsWith s "https://" then simpleUrlOf "https://" (dropChars 8 s)
  else if startsWith s "http://" then simpleUrlOf "http://" (dropChars 7 s)
  else None.

#[local] Instance simpleUrlApi : UrlApi := {|
  URL := SimpleUrl;
  URL_new := simpleUrlNew;
  URL_setPathname url path := {| su_origin := su_origin url; su_pathname := path |};
  URL_toString url := su_origin url +:+ su_pathname url
|}.

(** ** Column extraction from a YAML document ([extractColumnsFromYML]) *)

(** [yaml.load] of js-yaml: the parsed document, or [None] when the parser
    throws.  The empty document loads as undefined. *)
Class YamlApi : Type := { yaml_load : string → option JsVal }.

Record Column : Type := {
  col_name : JsVal;
  col_dataType : JsVal;
  col_nullable : JsVal;
  col_primaryKey : JsVal
}.

(** The callback of the Coalesce branch; reading a property of a null entry
    throws. *)
Definition coalesceColumn (col : JsVal) : option Column :=
  name ← getProp col "name";
  dataType ← getProp col "dataType";
  nullable ← getProp col "nullable";
  primaryKey ← getProp col "primaryKey";
  Some {| col_name := js_or name (JStr "");
          col_dataType := js_or dataType (JStr "");
          col_nullable := js_or nullable (JBool false);
          col_primaryKey := js_or primaryKey (JBool false) |}.

Definition nameOnly (name : JsVal) : Column :=
  {| col_name := name; col_dataType := JUndefined;
     col_nullable := JUndefined; col_primaryKey := JUndefined |}.

(** The callback of the fallback branch:
    [typeof col === 'string' ? { name: col } : { name: col.name || col }]. *)
Definition fallbackColumn (col : JsVal) : option Column :=
  match col with
  | JStr _ => Some (nameOnly col)
  | _ => name ← getProp col "name"; Some (nameOnly (js_or name col))
  end.

(** [v.map(f)]: [v] has to be an array, anything else has no callable
    [map] and the call throws. *)
Definition arrayMap {B : Type} (f : JsVal → option B) (v : JsVal) : option (list B) :=
  match v with
  | JArr items => mapM f items
  | _ => None
  end.

Definition named (cols : list Column) : list Column :=
  filter (λ col, truthy (col_name col)) cols.

(** The value of
    [schema.operation && schema.operation.metadata && schema.operation.metadata.columns]. *)
Definition coalesceColumns (schema : JsVal) : option JsVal :=
  operation ← getProp schema "operation";
  if negb (truthy operation) then Some operation
  else
    metadata ← getProp operation "metadata";
    if negb (truthy metadata) then Some metadata
    else getProp metadata "columns".

(** The body of the [try] block on the outcome of [yaml.load]. *)
Definition extractColumnsTry (loaded : option JsVal) : option (list Column) :=
  schema ← loaded;
  if negb (truthy schema) then Some []
  else
    cols ← coalesceColumns schema;
    if truthy cols then named <$> arrayMap coalesceColumn cols
    else
      columns ← getProp schema "columns";
      if truthy columns then named <$> arrayMap fallbackColumn columns
      else Some [].

(** The [catch] block returns the empty list. *)
Definition extractColumnsFromSchema (loaded : option JsVal) : list Column :=
  default [] (extractColumnsTry loaded).

Definition extractColumnsFromYML `{YamlApi} (content : string) : list Column :=
  extractColumnsFromSchema (yaml_load content).

(** An entry of a [columns] sequence lacks a name when its [name] property
    is missing or falsy. *)
Definition lacksName (col : JsVal) : Prop :=
  ∃ name, getProp col "name" = Some name ∧ truthy name = false.

(** ** Column delta of the changed YAML files ([extractChangedColumns]) *)

(** [execSync] of [git show sha:path]: the content of the file at that
    revision, [None] when the command fails. *)
Class GitApi : Type := { gitShow : string → string → option string }.

(** [getFileContent]: the content, or null (here [None]) on any failure. *)
Definition getFileContent `{GitApi} (sha : JsVal) (filePath : string) : option string :=
  gitShow (js_toString sha) filePath.

(** The comparison [Array.prototype.includes] makes, between names of two
    different parses: primitive values are compared by value, an object or
    an array of one parse is never the object of another. *)
Definition sameValueZero (a b : JsVal) : bool :=
  match a, b with
  | JUndefined, JUndefined | JNull, JNull => true
  | JBool x, JBool y => Bool.eqb x y
  | JNum x, JNum y => (x =? y)%Z
  | JStr x, JStr y => String.eqb x y
  | _, _ => false
  end.

(** [names.includes(name)] *)
Definition namesInclude (names : list JsVal) (name : JsVal) : bool :=
  existsb (sameValueZero name) names.

(** The set-difference policy: [(addedCols, removedCols)]. *)
Definition columnDelta (baseCols headCols : list Column) : list Column * list Column :=
  let baseColNames := col_name <$> baseCols in
  let headColNames := col_name <$> headCols in
  (filter (λ col, ¬ namesInclude baseColNames (col_name col)) headCols,
   filter (λ col, ¬ namesInclude headColNames (col_name col)) baseCols).

Record ColumnChange : Type := { cc_column : JsVal; cc_file : string }.

Record ChangedColumns : Type := {
  added : list ColumnChange;
  removed : list ColumnChange;
  modified : list ColumnChange
}.

Definition noChanges : ChangedColumns := {| added := []; removed := []; modified := [] |}.

Definition changesOf (file : string) (cols : list Column) : list ColumnChange :=
  (λ col, {| cc_column := col_name col; cc_file := file |}) <$> cols.

Section Delta.
Context `{YamlApi} `{GitApi}.

(** [baseContent ? extractColumnsFromYML(baseContent, file) : []] *)
Definition baseColumns (baseContent : option string) : list Column :=
  match baseContent with
  | Some content => if String.eqb content "" then [] else extractColumnsFromYML content
  | None => []
  end.

(** One iteration of the loop: [baseSha] and [headSha] are the two
    revisions as the script reads them (undefined when not set). *)
Definition processFile (baseSha headSha : JsVal) (changedColumns : ChangedColumns)
    (file : string) : ChangedColumns :=
  let baseContent := if truthy baseSha then getFileContent baseSha file else None in
  let headContent := getFileContent headSha file in
  match headContent with
  | None => changedColumns
  | Some content =>
      if String.eqb content "" then changedColumns
      else
        let baseCols := baseColumns baseContent in
        let headCols := extractColumnsFromYML content in
        let '(addedCols, removedCols) := columnDelta baseCols headCols in
        {| added := added changedColumns ++ changesOf file addedCols;
           removed := removed changedColumns ++ changesOf file removedCols;
           modified := modified changedColumns |}
  end.

Definition ymlFiles (changedFiles : list string) : list string :=
  filter (λ f, endsWith f ".yml") changedFiles.

Definition extractChangedColumns (baseSha headSha : JsVal) (changedFiles : list string) :
    ChangedColumns :=
  foldl (processFile baseSha headSha) noChanges (ymlFiles changedFiles).

(** The same iteration in the words of the specification: only an absent
    after-content skips the file. *)
Definition specProcessFile (baseSha headSha : JsVal) (changedColumns : ChangedColumns)
    (file : string) : ChangedColumns :=
  let baseContent := if truthy baseSha then getFileContent baseSha file else None in
  match getFileContent headSha file with
  | None => changedColumns
  | Some content =>
      let baseCols := from_option extractColumnsFromYML [] baseContent in
      let headCols := extractColumnsFromYML content in
      {| added := added changedColumns
                  ++ changesOf file
                       (filter (λ col, ¬ namesInclude (col_name <$> baseCols) (col_name col))
                               headCols);
         removed := removed changedColumns
                    ++ changesOf file
                         (filter (λ col, ¬ namesInclude (col_name <$> headCols) (col_name col))
                                 baseCols);
         modified := modified changedColumns |}
  end.
End Delta.

(** ** Task matching (the [matchedTasks] pipeline of [run]) *)

(** A record of the task listing.  The name and the connector type are
    strings when present, the type on which the script calls
    [toLowerCase]. *)
Record Task : Type := {
  t_name : option string;
  t_asset_id : JsVal;
  t_connection_id : JsVal;
  t_task_id : JsVal;
  t_connection_type : option string
}.

(** The value of [filePath] in a matched task: the path of a changed file,
    or the prototype object of [modelNameToFileMap], which is what the
    script reads from that object for the model name [__proto__]. *)
Inductive FilePath : Type :=
  | ChangedFile (path : string)
  | ObjectPrototype.

#[global] Instance FilePath_eq_dec : EqDecision FilePath := ltac:(solve_decision).

(** The file path as a property key and in a template: the path itself,
    and the text of the prototype object. *)
Definition filePathKey (filePath : FilePath) : string :=
  match filePath with
  | ChangedFile path => path
  | ObjectPrototype => "[object Object]"
  end.

Record MatchedTask : Type := {
  mt_task : Task;
  mt_entity : JsVal;
  mt_filePath : FilePath
}.

(** [(name || "")] *)
Definition orEmpty (name : option string) : string := default "" name.

Definition isCoalesceTask (task : Task) : bool :=
  let connType := toLowerCase (orEmpty (t_connection_type task)) in
  String.eqb connType "coalesce_pipeline" || includes connType "coalesce_pipeline".

(** [modelNameToFileMap] is a plain object; the map holds its own
    properties.  [modelNameToFileMap[modelName] = file] sets the own
    property of that name, except for the name [__proto__]: there the
    assignment runs the setter the object inherits from its prototype,
    and the setter ignores a string, so that nothing is stored. *)
Definition setModelFile (modelName file : string)
    (modelNameToFileMap : gmap string string) : gmap string string :=
  if String.eqb modelName "__proto__" then modelNameToFileMap
  else <[modelName := file]> modelNameToFileMap.

(** [modelNameToFileMap[model]], for a name the loop has recorded (the
    script reads no other): the file of the own property, and for the
    name [__proto__] the prototype of the object, through the inherited
    getter. *)
Definition getModelFile (model : string) (modelNameToFileMap : gmap string string) :
    option FilePath :=
  if String.eqb model "__proto__" then Some ObjectPrototype
  else ChangedFile <$> modelNameToFileMap !! model.

(** The loop over the changed YAML files that fills [changedModels] and
    [modelNameToFileMap].  [modelNameOf file] is the model name the loop
    body obtains for the file (from the head revision or, failing that,
    from the working tree), [None] when the file cannot be read; a falsy
    name is not recorded. *)
Definition recordModel (modelNameOf : string → option string)
    (acc : list string * gmap string string) (file : string) :
    list string * gmap string string :=
  let '(changedModels, modelNameToFileMap) := acc in
  match modelNameOf file with
  | Some modelName =>
      if String.eqb modelName "" then (changedModels, modelNameToFileMap)
      else (changedModels ++ [modelName], setModelFile modelName file modelNameToFileMap)
  | None => (changedModels, modelNameToFileMap)
  end.

Definition collectModels (modelNameOf : string → option string)
    (changedYmlFiles : list string) : list string * gmap string string :=
  foldl (recordModel modelNameOf) ([], ∅) changedYmlFiles.

Definition sameModel (task : Task) (model : string) : bool :=
  String.eqb (toLowerCase model) (toLowerCase (orEmpty (t_name task))).

(** The object the [map] step builds; [filePath] is null when no model or
    no file is found. *)
Definition withFilePath (changedModels : list string)
    (modelNameToFileMap : gmap string string) (task : Task) :
    Task * JsVal * option FilePath :=
  let matchingModel := List.find (sameModel task) changedModels in
  (task, js_or (t_task_id task) (JStr ""),
   matchingModel ≫= λ model, getModelFile model modelNameToFileMap).

(** [filter(task => task.filePath)]: a non-empty path and the prototype
    object are truthy. *)
Definition keepWithFile (entry : Task * JsVal * option FilePath) : option MatchedTask :=
  let '(task, entity, filePath) := entry in
  match filePath with
  | Some (ChangedFile path) =>
      if String.eqb path "" then None
      else Some {| mt_task := task; mt_entity := entity; mt_filePath := ChangedFile path |}
  | Some ObjectPrototype =>
      Some {| mt_task := task; mt_entity := entity; mt_filePath := ObjectPrototype |}
  | None => None
  end.

Definition matchedTasks (changedModels : list string)
    (modelNameToFileMap : gmap string string) (coalesceTasks : list Task) :
    list MatchedTask :=
  omap keepWithFile
    (withFilePath changedModels modelNameToFileMap <$>
       filter (λ task, existsb (sameModel task) changedModels) coalesceTasks).

(** From the changed files and the task listing to the matched tasks. *)
Definition matchTasks (modelNameOf : string → option string)
    (changedFiles : list string) (tasks : list Task) : list MatchedTask :=
  let changedYmlFiles := filter (λ file, endsWith file ".yml") changedFiles in
  let '(changedModels, modelNameToFileMap) := collectModels modelNameOf changedYmlFiles in
  matchedTasks changedModels modelNameToFileMap (filter (λ task, isCoalesceTask task) tasks).

(** The changed model names of a run. *)
Definition changedModelsOf (modelNameOf : string → option string)
    (changedFiles : list string) : list string :=
  (collectModels modelNameOf (filter (λ file, endsWith file ".yml") changedFiles)).1.

(** ** Report synthesis ([buildNewAnalysisReport], [generateComprehensiveJSON]) *)

(** The action inputs the synthesizer reads (module-level constants of the
    script). *)
Record Inputs : Type := {
  dqlabs_base_url : string;
  dqlabs_createlink_url : string;
  dqlabs_configurable_keys : string
}.

(** What the run takes from the clock and from the GitHub context. *)
Record RunContext : Type := {
  rc_timestamp : string;
  rc_sha : JsVal;
  rc_pull_request_number : JsVal
}.

Definition configurableKeys (inputs : Inputs) : OutputOptions :=
  parseConfigurableKeys (JStr (dqlabs_configurable_keys inputs)).

Definition nl : string := String (ascii_of_nat 10) "".

(** [join] of an array of values: undefined and null print as nothing. *)
Definition joinValues (sep : string) (values : list JsVal) : string :=
  join sep ((λ v, match v with JUndefined | JNull => "" | _ => js_toString v end) <$> values).

(** The collapsible block of a detail list, nothing for an empty list. *)
Definition detailsBlock (title : string) (lines : list string) : string :=
  match lines with
  | [] => ""
  | _ =>
      nl +:+ "<details>" +:+ nl +:+ "<summary><b>" +:+ title +:+ " ("
        +:+ pretty (length lines) +:+ ")</b></summary>" +:+ nl +:+ nl
        +:+ join nl lines +:+ nl +:+ "</details>" +:+ nl
  end.

Definition when (flag : bool) (text : string) : string := if flag then text else "".

Section Synthesizer.
Context `{UrlApi}.
Variable inputs : Inputs.

Definition assetLine (model : ImpactRecord) : string :=
  let url := constructItemUrl model (dqlabs_createlink_url inputs) in
  let modelName := js_toString (js_or (ir_name model) (JStr "Unknown")) in
  if truthy (ir_connection_id model) && negb (String.eqb url "#")
  then "- [" +:+ modelName +:+ "](" +:+ url +:+ ")"
  else "- " +:+ modelName.

Definition columnLine (column : ColumnImpactRecord) : string :=
  let url := constructColumnUrl column (dqlabs_createlink_url inputs) in
  let columnName :=
    js_toString (js_or (ci_table_name column) (JStr "Unknown")) +:+ "." +:+
    js_toString (js_or (ci_column_name column) (JStr "Unknown")) in
  let tail :=
    " - *" +:+ js_toString (js_or (ci_impact_type column) (JStr "Referenced")) +:+ "* ("
      +:+ js_toString (js_or (ci_data_type column) (JStr "Unknown Type")) +:+ ")" in
  if truthy (ci_connection_id column) && negb (String.eqb url "#")
  then "- [" +:+ columnName +:+ "](" +:+ url +:+ ")" +:+ tail
  else "- " +:+ columnName +:+ tail.

(** [Object.values(m).reduce((sum, impacts) => sum + impacts.xs.length, 0)] *)
Definition total {V A : Type} (xs : V → list A) (entries : list (string * V)) : nat :=
  foldl (λ sum entry, sum + length (xs entry.2)) 0 entries.

(** The lines of a detail list, over all files in entry order. *)
Definition linesOf {V A : Type} (xs : V → list A) (line : A → string)
    (entries : list (string * V)) : list string :=
  entry ← entries; line <$> xs entry.2.

Definition changedFilesSection (changedFiles : list string) : string :=
  "### Changed Files" +:+ nl +:+
  match changedFiles with
  | [] => "- No files changed" +:+ nl
  | _ => String.concat "" ((λ file, "- " +:+ file +:+ nl) <$> changedFiles)
  end +:+ nl.

Definition assetSection (fileImpacts : list (string * FileImpactSet)) : string :=
  let keys := configurableKeys inputs in
  let hasAssetKeys :=
    showDirectAssetCount keys || showIndirectAssetCount keys ||
    showDirectAssetList keys || showIndirectAssetList keys in
  when hasAssetKeys
    ("### Asset level Impacts" +:+ nl
     +:+ when (showDirectAssetCount keys)
           ("- **Total Directly Impacted:** " +:+ pretty (total fi_direct fileImpacts) +:+ nl)
     +:+ when (showIndirectAssetCount keys)
           ("- **Total Indirectly Impacted:** "
              +:+ pretty (total fi_indirect fileImpacts) +:+ nl)
     +:+ when (showDirectAssetList keys)
           (detailsBlock "Directly Impacted Assets" (linesOf fi_direct assetLine fileImpacts))
     +:+ when (showIndirectAssetList keys)
           (detailsBlock "Indirectly Impacted Assets"
              (linesOf fi_indirect assetLine fileImpacts))
     +:+ nl).

Definition columnSection (columnImpacts : list (string * ColumnImpactSet)) : string :=
  let keys := configurableKeys inputs in
  let hasColumnKeys :=
    showDirectColumnCount keys || showIndirectColumnCount keys ||
    showDirectColumnList keys || showIndirectColumnList keys in
  when hasColumnKeys
    ("### Column level Impacts" +:+ nl
     +:+ when (showDirectColumnCount keys)
           ("- **Total Directly Impacted Columns:** "
              +:+ pretty (total cs_direct columnImpacts) +:+ nl)
     +:+ when (showIndirectColumnCount keys)
           ("- **Total Indirectly Impacted Columns:** "
              +:+ pretty (total cs_indirect columnImpacts) +:+ nl)
     +:+ when (showDirectColumnList keys)
           (detailsBlock "Directly Impacted Columns"
              (linesOf cs_direct columnLine columnImpacts))
     +:+ when (showIndirectColumnList keys)
           (detailsBlock "Indirectly Impacted Columns"
              (linesOf cs_indirect columnLine columnImpacts))
     +:+ nl).

Definition buildNewAnalysisReport (fileImpacts : list (string * FileImpactSet))
    (columnImpacts : list (string * ColumnImpactSet)) (changedFiles : list string) :
    string :=
  "## Impact Analysis Report" +:+ nl +:+ nl
    +:+ changedFilesSection changedFiles
    +:+ assetSection fileImpacts
    +:+ columnSection columnImpacts.

(** The section [run] appends for the YML column changes. *)
Definition ymlSection (ymlAdded ymlRemoved : list Column) : string :=
  when (showYmlColumnChanges (configurableKeys inputs))
    ("### YML Column Changes" +:+ nl
     +:+ "Added columns(" +:+ pretty (length ymlAdded) +:+ "): "
     +:+ joinValues ", " (col_name <$> ymlAdded) +:+ nl
     +:+ "Removed columns(" +:+ pretty (length ymlRemoved) +:+ "): "
     +:+ joinValues ", " (col_name <$> ymlRemoved) +:+ nl +:+ nl).

(** The Markdown summary of the run. *)
Definition summaryMarkdown (fileImpacts : list (string * FileImpactSet))
    (columnImpacts : list (string * ColumnImpactSet)) (changedFiles : list string)
    (ymlAdded ymlRemoved : list Column) : string :=
  buildNewAnalysisReport fileImpacts columnImpacts changedFiles
    +:+ ymlSection ymlAdded ymlRemoved.

Record AssetImpactJson : Type := {
  aj_file_path : string;
  aj_model_name : JsVal;
  aj_task_name : option string;
  aj_redirect_url : string
}.

Record ColumnImpactJson : Type := {
  cj_file_path : string;
  cj_table_name : JsVal;
  cj_column_name : JsVal;
  cj_data_type : JsVal;
  cj_task_name : option string;
  cj_redirect_url : string
}.

Record JsonMetadata : Type := {
  jm_timestamp : string;
  jm_commit_sha : JsVal;
  jm_pull_request_number : JsVal;
  jm_configurable_keys_used : list string;
  jm_dqlabs_base_url : string;
  jm_analysis_type : string
}.

Record JsonSummary : Type := {
  total_direct_assets : nat;
  total_indirect_assets : nat;
  total_direct_columns : nat;
  total_indirect_columns : nat;
  total_yml_added : nat;
  total_yml_removed : nat;
  total_changed_files : nat
}.

(** The object [generateComprehensiveJSON] fills and hands to
    [JSON.stringify]. *)
Record JsonData : Type := {
  jd_metadata : JsonMetadata;
  jd_changed_files : list string;
  asset_impacts_direct : list AssetImpactJson;
  asset_impacts_indirect : list AssetImpactJson;
  column_impacts_direct : list ColumnImpactJson;
  column_impacts_indirect : list ColumnImpactJson;
  yml_column_changes_added : list JsVal;
  yml_column_changes_removed : list JsVal;
  jd_summary : JsonSummary
}.

Definition assetJson (filePath : string) (impacts : FileImpactSet)
    (model : ImpactRecord) : AssetImpactJson :=
  {| aj_file_path := filePath;
     aj_model_name := ir_name model;
     aj_task_name := fi_taskName impacts;
     aj_redirect_url := constructItemUrl model (dqlabs_createlink_url inputs) |}.

Definition columnJson (filePath : string) (impacts : ColumnImpactSet)
    (column : ColumnImpactRecord) : ColumnImpactJson :=
  {| cj_file_path := filePath;
     cj_table_name := ci_table_name column;
     cj_column_name := ci_column_name column;
     cj_data_type := ci_data_type column;
     cj_task_name := cs_taskName impacts;
     cj_redirect_url := constructColumnUrl column (dqlabs_createlink_url inputs) |}.

Definition generateComprehensiveJSON (context : RunContext)
    (fileImpacts : list (string * FileImpactSet))
    (columnImpacts : list (string * ColumnImpactSet)) (changedFiles : list string)
    (ymlAdded ymlRemoved : list Column) : JsonData :=
  let assetDirect :=
    entry ← fileImpacts; assetJson entry.1 entry.2 <$> fi_direct entry.2 in
  let assetIndirect :=
    entry ← fileImpacts; assetJson entry.1 entry.2 <$> fi_indirect entry.2 in
  let columnDirect :=
    entry ← columnImpacts; columnJson entry.1 entry.2 <$> cs_direct entry.2 in
  let columnIndirect :=
    entry ← columnImpacts; columnJson entry.1 entry.2 <$> cs_indirect entry.2 in
  {| jd_metadata :=
       {| jm_timestamp := rc_timestamp context;
          jm_commit_sha := rc_sha context;
          jm_pull_request_number := js_or (rc_pull_request_number context) JNull;
          jm_configurable_keys_used :=
            if String.eqb (dqlabs_configurable_keys inputs) "" then []
            else trim <$> splitComma (dqlabs_configurable_keys inputs);
          jm_dqlabs_base_url := dqlabs_base_url inputs;
          jm_analysis_type := "coalesce_yml_impact_analysis" |};
     jd_changed_files := changedFiles;
     asset_impacts_direct := assetDirect;
     asset_impacts_indirect := assetIndirect;
     column_impacts_direct := columnDirect;
     column_impacts_indirect := columnIndirect;
     yml_column_changes_added := col_name <$> ymlAdded;
     yml_column_changes_removed := col_name <$> ymlRemoved;
     jd_summary :=
       {| total_direct_assets := length assetDirect;
          total_indirect_assets := length assetIndirect;
          total_direct_columns := length columnDirect;
          total_indirect_columns := length columnIndirect;
          total_yml_added := length ymlAdded;
          total_yml_removed := length ymlRemoved;
          total_changed_files := length changedFiles |} |}.
End Synthesizer.

(** The sections of the structured mirror that carry the reconciled data. *)
Definition impactSections (json : JsonData) :=
  (asset_impacts_direct json, asset_impacts_indirect json,
   column_impacts_direct json, column_impacts_indirect json,
   yml_column_changes_added json, yml_column_changes_removed json,
   jd_summary json).

(** The inputs of a run with another option-key string. *)
Definition withKeys (inputs : Inputs) (keys : string) : Inputs :=
  {| dqlabs_base_url := dqlabs_base_url inputs;
     dqlabs_createlink_url := dqlabs_createlink_url inputs;
     dqlabs_configurable_keys := keys |}.

(** ** Classification of one task's impact response ([run], per task) *)

(** An entry of a response list: a record, or [None] for a null entry.
    [table?.name] *)
Definition recordName (table : option ImpactRecord) : JsVal :=
  from_option ir_name JUndefined table.

(** [name === task.name], with the task's name as the listing has it
    ([None] when the task has no name). *)
Definition isTaskName (name : JsVal) (taskName : option string) : bool :=
  match taskName, name with
  | Some s, _ => isString name s
  | None, JUndefined => true
  | None, _ => false
  end.

(** [indirectNameSet.has(name)].  The response is one parsed document, so
    two names are the same set element when they are the same primitive
    value; an object is no other object. *)
Definition nameSetHas (indirectNames : list JsVal) (name : JsVal) : bool :=
  existsb (sameValueZero name) indirectNames.

(** [filter(Boolean)] on a list of records and nulls. *)
Definition nonNull {A : Type} (entries : list (option A)) : list A := omap id entries.

Definition filteredDirectImpact (taskName : option string)
    (impactTables indirectImpact : list (option ImpactRecord)) : list ImpactRecord :=
  let indirectNameSet := recordName <$> indirectImpact in
  nonNull
    (filter (λ table, ¬ isTaskName (recordName table) taskName)
       (filter (λ table, ¬ nameSetHas indirectNameSet (recordName table)) impactTables)).

Definition filteredInDirectImpact (taskName : option string)
    (indirectImpact : list (option ImpactRecord)) : list ImpactRecord :=
  nonNull (filter (λ table, ¬ isTaskName (recordName table) taskName) indirectImpact).

(** The two [push] calls of one task on the entry of its file. *)
Definition pushImpacts (taskName : option string)
    (impactTables indirectImpact : list (option ImpactRecord)) (impacts : FileImpactSet) :
    FileImpactSet :=
  {| fi_direct := fi_direct impacts
                  ++ filteredDirectImpact taskName impactTables indirectImpact;
     fi_indirect := fi_indirect impacts ++ filteredInDirectImpact taskName indirectImpact;
     fi_taskName := fi_taskName impacts |}.

(** The reconciliation of one file: both loops on its entry. *)
Definition reconcileFile (impacts : FileImpactSet) : FileImpactSet :=
  fileDedup (fileRemoveDirect impacts).

Definition reconcileColumns (impacts : ColumnImpactSet) : ColumnImpactSet :=
  columnSetDedup (columnRemoveDirect impacts).

(** ** The report comment ([run], posting) *)

(** The marker the update step searches the existing comments for. *)
Definition reportMarker : string := "## Impact Analysis Report".

(** A comment of the pull request, as far as the script reads it. *)
Record Comment : Type := {
  c_id : JsVal;
  c_user_type : string;
  c_user_login : string;
  c_body : string
}.

(** The callback of [comments.data.find]. *)
Definition isReportComment (comment : Comment) : bool :=
  String.eqb (c_user_type comment) "Bot"
  && String.eqb (c_user_login comment) "github-actions[bot]"
  && includes (c_body comment) reportMarker.

Definition existingComment (comments : list Comment) : option Comment :=
  List.find isReportComment comments.

(** The body of the comment: the summary followed by the collapsible block
    with the JSON text. *)
Definition finalSummary (summary comprehensiveJsonData : string) : string :=
  summary +:+ nl +:+ "### 📎 Complete Impact Analysis Data" +:+ nl
    +:+ "<details>" +:+ nl +:+ "<summary><b>View Complete JSON Data</b></summary>"
    +:+ nl +:+ nl +:+ "```json" +:+ nl +:+ comprehensiveJsonData +:+ nl +:+ "```" +:+ nl +:+ nl
    +:+ "*This JSON contains all impact analysis data regardless of display preferences.*"
    +:+ nl +:+ "</details>" +:+ nl +:+ nl.

(** What the posting step does with the body. *)
Inductive CommentAction : Type :=
  | UpdateComment (comment_id : JsVal) (body : string)
  | CreateComment (body : string).

Definition postComment (comments : list Comment) (summary comprehensiveJsonData : string) :
    CommentAction :=
  match existingComment comments with
  | Some comment => UpdateComment (c_id comment) (finalSummary summary comprehensiveJsonData)
  | None => CreateComment (finalSummary summary comprehensiveJsonData)
  end.

(** ** Column changes for the report ([processColumnChanges]) *)

Record FileChange : Type := {
  fc_file : string;
  fc_added : list JsVal;
  fc_removed : list JsVal
}.

(** The object the function returns. *)
Record ColumnChanges : Type := {
  pc_changes : list FileChange;
  pc_added : list Column;
  pc_removed : list Column
}.

Section ReportDelta.
Context `{GitApi}.
Variable extractor : string → string → list Column.

Definition processChange (baseSha headSha : JsVal) (acc : ColumnChanges) (file : string) :
    ColumnChanges :=
  let baseContent := if truthy baseSha then getFileContent baseSha file else None in
  match getFileContent headSha file with
  | None => acc
  | Some content =>
      if String.eqb content "" then acc
      else
        let baseCols :=
          match baseContent with
          | Some base => if String.eqb base "" then [] else extractor base file
          | None => []
          end in
        let headCols := extractor content file in
        let '(addedCols, removedCols) := columnDelta baseCols headCols in
        {| pc_changes :=
             pc_changes acc
             ++ (if bool_decide (addedCols = [] ∧ removedCols = []) then []
                 else [ {| fc_file := file; fc_added := col_name <$> addedCols;
                           fc_removed := col_name <$> removedCols |} ]);
           pc_added := pc_added acc ++ addedCols;
           pc_removed := pc_removed acc ++ removedCols |}
  end.

Definition processColumnChanges (extension : string) (baseSha headSha : JsVal)
    (changedFiles : list string) : ColumnChanges :=
  foldl (processChange baseSha headSha)
        {| pc_changes := []; pc_added := []; pc_removed := [] |}
        (filter (λ f, endsWith f extension) changedFiles).
End ReportDelta.

(** The call of [run]: the YAML files, with [extractColumnsFromYML]. *)
Definition ymlColumnChanges `{YamlApi} `{GitApi} (baseSha headSha : JsVal)
    (changedFiles : list string) : ColumnChanges :=
  processColumnChanges (λ content file, extractColumnsFromYML content) ".yml"
    baseSha headSha changedFiles.

(** ** Changed files ([getChangedFiles]) *)

(** The explicit list: the pieces between commas, trimmed, without the
    empty ones. *)
Definition changedFilesFromList (changedFilesList : string) : list string :=
  filter (λ f, f ≠ "") (trim <$> splitComma changedFilesList).

(** A commit of the push event; a member that is no array counts as the
    empty array ([safeArray]).  The file names are strings. *)
Record Commit : Type := {
  commit_added : list string;
  commit_modified : list string;
  commit_removed : list string
}.

(** The files one commit contributes; a null commit is skipped and falsy
    names are filtered out. *)
Definition commitFiles (commit : option Commit) : list string :=
  match commit with
  | None => []
  | Some c =>
      filter (λ file, file ≠ "") (commit_added c ++ commit_modified c ++ commit_removed c)
  end.

(** [Array.from] of the set the files are added to, in insertion order. *)
Definition changedFilesFromEvent (commits : list (option Commit)) : list string :=
  dedupBy id (commits ≫= commitFiles).

(** [eventPath] is the environment variable and [eventData] the commits of
    the parsed event file, [None] when reading or parsing it throws. *)
Definition getChangedFiles (changedFilesList : string) (eventPath : option string)
    (eventData : option (list (option Commit))) : list string :=
  if String.eqb changedFilesList "" then
    match eventPath with
    | None => []
    | Some path =>
        if String.eqb path "" then []
        else default [] (changedFilesFromEvent <$> eventData)
    end
  else changedFilesFromList changedFilesList.

(** ** Column-level analysis of one response ([getColumnLevelImpactAnalysis]) *)

(** The [some] loop on the changed columns as the run passes them, values
    of a YAML document: the callback calls [toLowerCase] on the changed
    column, which throws when it is no string.  [None] is that exception;
    the loop stops at the first match. *)
Fixpoint someColumnMatches (field_name : option string) (changedColumns : list JsVal) :
    option bool :=
  match changedColumns with
  | [] => Some false
  | JStr changedCol :: rest =>
      if matchesColumn field_name changedCol then Some true
      else someColumnMatches field_name rest
  | _ :: _ => None
  end.

(** The records one table contributes, field by field. *)
Definition tableImpactsTry (changedColumns : list JsVal) (table : LineageTable) :
    option (list ColumnImpactRecord) :=
  mjoin <$>
    mapM (λ field,
            isImpacted ← someColumnMatches (lf_name field) changedColumns;
            Some (if isImpacted : bool then [columnImpactOf table field] else []))
         (lt_fields table).

(** The body of the [try] block on the tables of the response, and the
    function with its [catch], which returns the empty list. *)
Definition columnImpactsTry (tables : list LineageTable) (changedColumns : list JsVal) :
    option (list ColumnImpactRecord) :=
  mjoin <$> mapM (tableImpactsTry changedColumns) tables.

Definition getColumnLevelImpactAnalysis (tables : list LineageTable)
    (changedColumns : list JsVal) : list ColumnImpactRecord :=
  default [] (columnImpactsTry tables changedColumns).

(** ** The impact loop of [run] *)

(** The lineage service, as the two query functions present it: the direct
    and the indirect list of the asset-level response and the tables of the
    column-level response, all empty when the request fails.  The arguments
    are the asset id and the connection id of the task, and for the columns
    whether the direct impacts are asked for. *)
Class LineageApi : Type := {
  impactAnalysis : JsVal → JsVal → list (option ImpactRecord) * list (option ImpactRecord);
  columnLineage : JsVal → JsVal → bool → list LineageTable
}.

(** [obj[key] = value] on the entries of an object: the value of an
    existing key is replaced in place, a new key is appended.  The keys are
    those of the file paths of matched tasks, the name of a [.yml] file or
    the text of the prototype object (none of them an array index or the
    name [__proto__]), which JavaScript enumerates in insertion order. *)
Fixpoint objSet {V : Type} (key : string) (value : V) (entries : list (string * V)) :
    list (string * V) :=
  match entries with
  | [] => [(key, value)]
  | (k, v) :: rest =>
      if String.eqb k key then (k, value) :: rest else (k, v) :: objSet key value rest
  end.

(** A change of [obj[key]] in place; nothing happens to the other keys. *)
Definition objUpdate {V : Type} (key : string) (f : V → V) (entries : list (string * V)) :
    list (string * V) :=
  (λ entry, if String.eqb entry.1 key then (entry.1, f entry.2) else entry) <$> entries.

(** [obj[key]] *)
Definition objGet {V : Type} (key : string) (entries : list (string * V)) : option V :=
  snd <$> List.find (λ entry, String.eqb entry.1 key) entries.

Definition ImpactState : Type :=
  list (string * FileImpactSet) * list (string * ColumnImpactSet).

(** The first loop over the matched tasks: an empty entry per file path. *)
Definition initImpacts (matchedTasks : list MatchedTask) : ImpactState :=
  foldl (λ (state : ImpactState) task,
           (objSet (filePathKey (mt_filePath task))
              {| fi_direct := []; fi_indirect := []; fi_taskName := t_name (mt_task task) |}
              state.1,
            objSet (filePathKey (mt_filePath task))
              {| cs_direct := []; cs_indirect := []; cs_taskName := t_name (mt_task task);
                 cs_changedColumns := [] |}
              state.2))
        ([], []) matchedTasks.

(** The changed columns attributed to the file of a task, those with
    [col.file === task.filePath]: the file of a column is a string, which
    is equal to the same path and to no object. *)
Definition taskChangedColumns (changedColumns : ChangedColumns) (filePath : FilePath) :
    list JsVal :=
  (cc_column <$> filter (λ col, ChangedFile (cc_file col) = filePath) (added changedColumns))
  ++ (cc_column <$> filter (λ col, ChangedFile (cc_file col) = filePath)
                      (removed changedColumns)).

(** [filter(column => column?.table_name !== task.name)] *)
Definition notOfTask (taskName : option string) (columns : list ColumnImpactRecord) :
    list ColumnImpactRecord :=
  filter (λ column, ¬ isTaskName (ci_table_name column) taskName) columns.

Section ImpactLoop.
Context `{LineageApi}.
Variable changedColumns : ChangedColumns.

(** The column part of one iteration, on the entry of the task's file. *)
Definition pushColumnImpacts (task : MatchedTask) (changed : list JsVal)
    (impacts : ColumnImpactSet) : ColumnImpactSet :=
  let asset_id := t_asset_id (mt_task task) in
  let connection_id := t_connection_id (mt_task task) in
  let taskName := t_name (mt_task task) in
  {| cs_direct :=
       cs_direct impacts
       ++ notOfTask taskName
            (getColumnLevelImpactAnalysis (columnLineage asset_id connection_id true) changed);
     cs_indirect :=
       cs_indirect impacts
       ++ notOfTask taskName
            (getColumnLevelImpactAnalysis (columnLineage asset_id connection_id false) changed);
     cs_taskName := cs_taskName impacts;
     cs_changedColumns := changed |}.

(** One iteration of the second loop. *)
Definition processTask (state : ImpactState) (task : MatchedTask) : ImpactState :=
  let '(impactTables, indirectImpact) :=
    impactAnalysis (t_asset_id (mt_task task)) (t_connection_id (mt_task task)) in
  let fileImpacts :=
    objUpdate (filePathKey (mt_filePath task))
      (pushImpacts (t_name (mt_task task)) impactTables indirectImpact) state.1 in
  let changed := taskChangedColumns changedColumns (mt_filePath task) in
  match changed with
  | [] => (fileImpacts, state.2)
  | _ =>
      (fileImpacts,
       objUpdate (filePathKey (mt_filePath task)) (pushColumnImpacts task changed) state.2)
  end.

(** Both loops, and then the reconciliation of all files. *)
Definition collectImpacts (matchedTasks : list MatchedTask) : ImpactState :=
  foldl processTask (initImpacts matchedTasks) matchedTasks.

Definition reconciledImpacts (matchedTasks : list MatchedTask) : ImpactState :=
  let state := collectImpacts matchedTasks in
  (reconcileFileImpacts state.1, reconcileColumnImpacts state.2).
End ImpactLoop.

(** ** Sample inputs *)

Definition noValue : JsVal := JUndefined.

(** Two asset records with different identity tuples. *)
Definition salesEuWest : ImpactRecord :=
  {| ir_name := JStr "sales-eu"; ir_connection_id := JStr "west";
     ir_asset_name := JStr "orders"; ir_asset_group := JStr "data";
     ir_redirect_id := JNum 7; ir_is_transform := noValue |}.

Definition salesEuWest' : ImpactRecord :=
  {| ir_name := JStr "sales"; ir_connection_id := JStr "eu-west";
     ir_asset_name := JStr "orders"; ir_asset_group := JStr "data";
     ir_redirect_id := JNum 8; ir_is_transform := noValue |}.

Definition columnRecord (table_name column_name connection_id : JsVal) :
    ColumnImpactRecord :=
  {| ci_table_name := table_name; ci_column_name := column_name;
     ci_column_id := noValue; ci_data_type := JStr "number";
     ci_table_id := noValue; ci_redirect_id := JNum 3; ci_entity := noValue;
     ci_connection_id := connection_id; ci_asset_name := noValue;
     ci_flow := noValue; ci_depth := noValue;
     ci_impact_type := JStr "Column Referenced"; ci_asset_group := JStr "data" |}.

(** Two column records with different identity tuples. *)
Definition ordersNetTotal : ColumnImpactRecord :=
  columnRecord (JStr "orders-net") (JStr "total") (JNum 1).

Definition ordersNetTotal' : ColumnImpactRecord :=
  columnRecord (JStr "orders") (JStr "net-total") (JNum 1).

Definition inDoubleQuotes (s : string) : string :=
  String dquote (s +:+ String dquote "").

Definition inBackticks (s : string) : string :=
  String backtick (s +:+ String backtick "").

(** An asset record that has a redirect id and no connection id. *)
Definition unconnectedAsset : ImpactRecord :=
  {| ir_name := JStr "orders_clean"; ir_connection_id := noValue;
     ir_asset_name := JStr "orders_clean"; ir_asset_group := JStr "data";
     ir_redirect_id := JNum 42; ir_is_transform := noValue |}.

Definition transformAsset : ImpactRecord :=
  {| ir_name := JStr "orders_rollup"; ir_connection_id := JNum 5;
     ir_asset_name := JStr "orders_rollup"; ir_asset_group := JStr "pipeline";
     ir_redirect_id := JStr "a1b2"; ir_is_transform := JBool true |}.

Definition exampleBase : string := "https://app.example.com".

(** Three YAML texts and the documents js-yaml loads from them. *)
Definition line (s : string) : string := s +:+ nl.

Definition ordersBaseText : string :=
  line "operation:" +:+ line "  metadata:" +:+ line "    columns:"
    +:+ line "      - name: id" +:+ line "      - name: total".

Definition ordersHeadText : string :=
  ordersBaseText +:+ line "      - name: tax" +:+ line "      - dataType: NUMBER".

Definition plainColumnsText : string :=
  line "columns:" +:+ line "  - id" +:+ line "  - dataType: NUMBER".

Definition coalesceDoc (columns : list JsVal) : JsVal :=
  JObj [("operation", JObj [("metadata", JObj [("columns", JArr columns)])])].

Definition ordersBaseDoc : JsVal :=
  coalesceDoc [JObj [("name", JStr "id")]; JObj [("name", JStr "total")]].

Definition ordersHeadDoc : JsVal :=
  coalesceDoc [JObj [("name", JStr "id")]; JObj [("name", JStr "total")];
               JObj [("name", JStr "tax")]; JObj [("dataType", JStr "NUMBER")]].

Definition plainColumnsDoc : JsVal :=
  JObj [("columns", JArr [JStr "id"; JObj [("dataType", JStr "NUMBER")]])].

(** A loader that knows these texts and the empty document, and fails on
    every other text. *)
#[local] Instance sampleYaml : YamlApi := {|
  yaml_load content :=
    if String.eqb content "" then Some JUndefined
    else if String.eqb content ordersBaseText then Some ordersBaseDoc
    else if String.eqb content ordersHeadText then Some ordersHeadDoc
    else if String.eqb content plainColumnsText then Some plainColumnsDoc
    else None
|}.

(** A repository with two revisions: [orders.yml] gains columns, and
    [legacy.yml] is emptied. *)
#[local] Instance sampleGit : GitApi := {|
  gitShow sha path :=
    if String.eqb path "models/orders.yml" then
      if String.eqb sha "base" then Some ordersBaseText
      else if String.eqb sha "head" then Some ordersHeadText
      else None
    else if String.eqb path "models/legacy.yml" then
      if String.eqb sha "base" then Some ordersBaseText
      else if String.eqb sha "head" then Some ""
      else None
    else if String.eqb path "models/new.yml" then
      if String.eqb sha "head" then Some ordersBaseText else None
    else None
|}.

Definition column (name : string) : Column :=
  {| col_name := JStr name; col_dataType := JStr "";
     col_nullable := JBool false; col_primaryKey := JBool false |}.

Definition coalesceTask (name : string) : Task :=
  {| t_name := Some name; t_asset_id := JNum 11; t_connection_id := JNum 5;
     t_task_id := JStr "task-11"; t_connection_type := Some "Coalesce_Pipeline" |}.

(** The model names read from the sample files. *)
Definition sampleModelName (file : string) : option string :=
  if String.eqb file "models/orders.yml" then Some "Orders" else None.

(** The same, with a further file whose node is named [__proto__]. *)
Definition protoModelName (file : string) : option string :=
  if String.eqb file "models/p.yml" then Some "__proto__" else sampleModelName file.

(** Reconciled data of one file: one direct and one indirect asset, one
    direct and one indirect column. *)
Definition sampleFileImpacts : list (string * FileImpactSet) :=
  [("models/orders.yml",
    {| fi_direct := [transformAsset]; fi_indirect := [salesEuWest];
       fi_taskName := Some "orders" |})].

Definition sampleColumnImpacts : list (string * ColumnImpactSet) :=
  [("models/orders.yml",
    {| cs_direct := [ordersNetTotal];
       cs_indirect := [columnRecord (JStr "revenue") (JStr "tax") (JNum 1)];
       cs_taskName := Some "orders"; cs_changedColumns := [JStr "tax"] |})].

Definition sampleInputs (keys : string) : Inputs :=
  {| dqlabs_base_url := "https://api.example.com/";
     dqlabs_createlink_url := exampleBase;
     dqlabs_configurable_keys := keys |}.

Definition sampleContext : RunContext :=
  {| rc_timestamp := "2025-01-01T00:00:00.000Z"; rc_sha := JStr "4f2a9c1";
     rc_pull_request_number := JNum 17 |}.

(** A repository in which [orders.yml] is the same at both revisions. *)
Definition stableGit : GitApi := {|
  gitShow sha path :=
    if String.eqb path "models/orders.yml" then Some ordersHeadText else None
|}.

(** A loader for one document with a plain list of column names. *)
Definition namesText : string := "columns: [id, '', total]".

Definition namesYaml : YamlApi := {|
  yaml_load content :=
    if String.eqb content namesText
    then Some (JObj [("columns", JArr [JStr "id"; JStr ""; JStr "total"])])
    else None
|}.

(** ** Properties stated about the model *)

(** The invariant of a reconciled pair of lists: no key on both sides, no
    key twice on one side. *)
Definition Reconciled {A : Type} (key : A → string) (direct indirect : list A) : Prop :=
  (key <$> direct) ## (key <$> indirect)
  ∧ NoDup (key <$> direct) ∧ NoDup (key <$> indirect).

(** [t] occurs in [s]. *)
Definition Substring (t s : string) : Prop := ∃ pre post, s = pre +:+ t +:+ post.

(** The values [includes] compares by value. *)
Definition primitive (v : JsVal) : Prop :=
  match v with
  | JArr _ | JObj _ => False
  | _ => True
  end.

(** The document has neither of the two column sections: the Coalesce
    chain and the top-level [columns] both read falsy. *)
Definition noColumnsSection (schema : JsVal) : Prop :=
  (∃ v, coalesceColumns schema = Some v ∧ truthy v = false)
  ∧ (∃ v, getProp schema "columns" = Some v ∧ truthy v = false).

(** Every recorded model name reads a truthy file path from the object. *)
Definition modelsHaveFiles (acc : list string * gmap string string) : Prop :=
  ∀ model, model ∈ acc.1 →
           ∃ filePath, getModelFile model acc.2 = Some filePath ∧ filePath ≠ ChangedFile "".

(** The before-names of a file, as the delta loop computes them. *)
Definition baseNamesOf `{YamlApi} `{GitApi} (baseSha : JsVal) (file : string) : list JsVal :=
  col_name <$> baseColumns (if truthy baseSha then getFileContent baseSha file else None).

(** The string does not begin with white space. *)
Definition noLeadingSpace (s : string) : Prop :=
  match s with
  | "" => True
  | String c _ => Ascii.is_space c = false
  end.

(** Every recorded model name is non-empty and reads a file path from the
    object, and every file stored in the object is one of [files]. *)
Definition modelsFromFiles (files : list string)
    (acc : list string * gmap string string) : Prop :=
  (∀ model, model ∈ acc.1 → model ≠ "" ∧ is_Some (getModelFile model acc.2))
  ∧ (∀ model file, acc.2 !! model = Some file → file ∈ files).

(** The column a mapping of the Coalesce section stands for: its name, and
    the other three properties with their defaults. *)
Definition columnOfMapping (fields : list (string * JsVal)) : Column :=
  {| col_name := assoc "name" fields;
     col_dataType := js_or (assoc "dataType" fields) (JStr "");
     col_nullable := js_or (assoc "nullable" fields) (JBool false);
     col_primaryKey := js_or (assoc "primaryKey" fields) (JBool false) |}.

(** The record the Coalesce callback builds from a mapping. *)
Definition mappingColumn (fields : list (string * JsVal)) : Column :=
  {| col_name := js_or (assoc "name" fields) (JStr "");
     col_dataType := js_or (assoc "dataType" fields) (JStr "");
     col_nullable := js_or (assoc "nullable" fields) (JBool false);
     col_primaryKey := js_or (assoc "primaryKey" fields) (JBool false) |}.

(** The matched tasks attached to the entry of a key, in their order. *)
Definition tasksOfFile (filePath : string) (matchedTasks : list MatchedTask) :
    list MatchedTask :=
  filter (λ task, filePathKey (mt_filePath task) = filePath) matchedTasks.

(** Those of them whose file path is the changed file of that name. *)
Definition tasksOfChangedFile (file : string) (matchedTasks : list MatchedTask) :
    list MatchedTask :=
  filter (λ task, mt_filePath task = ChangedFile file) matchedTasks.

(** The filtered direct and indirect batch of one task's response. *)
Definition directBatch `{LineageApi} (task : MatchedTask) : list ImpactRecord :=
  let response :=
    impactAnalysis (t_asset_id (mt_task task)) (t_connection_id (mt_task task)) in
  filteredDirectImpact (t_name (mt_task task)) response.1 response.2.

Definition indirectBatch `{LineageApi} (task : MatchedTask) : list ImpactRecord :=
  let response :=
    impactAnalysis (t_asset_id (mt_task task)) (t_connection_id (mt_task task)) in
  filteredInDirectImpact (t_name (mt_task task)) response.2.

(** The filtered column batch of one task, direct or indirect. *)
Definition columnBatch `{LineageApi} (changed : list JsVal) (isDirect : bool)
    (task : MatchedTask) : list ColumnImpactRecord :=
  notOfTask (t_name (mt_task task))
    (getColumnLevelImpactAnalysis
       (columnLineage (t_asset_id (mt_task task)) (t_connection_id (mt_task task)) isDirect)
       changed).

(** What one iteration does to the asset entry and to the column entry of
    the task's file. *)
Definition assetStep `{LineageApi} (task : MatchedTask) : FileImpactSet → FileImpactSet :=
  let response :=
    impactAnalysis (t_asset_id (mt_task task)) (t_connection_id (mt_task task)) in
  pushImpacts (t_name (mt_task task)) response.1 response.2.

Definition columnStep `{LineageApi} (changedColumns : ChangedColumns) (task : MatchedTask) :
    ColumnImpactSet → ColumnImpactSet :=
  match taskChangedColumns changedColumns (mt_filePath task) with
  | [] => id
  | changed => pushColumnImpacts task changed
  end.

(** * Proofs *)

(** ** Deduplication and precedence, for any key function *)

Section ByKeyFacts.
Context {A : Type} (key : A → string).
Implicit Types (seen : gset string) (arr : list A).

Lemma elem_of_dedupFrom seen arr x :
  x ∈ dedupFrom key seen arr → x ∈ arr ∧ key x ∉ seen.
Proof.
  revert seen. induction arr as [|item rest IH]; intros seen; simpl.
  - by intros ?%elem_of_nil.
  - destruct (decide (key item ∈ seen)) as [Hin|Hout].
    + intros [? ?]%IH. split; [by right | done].
    + intros [->|Hx]%elem_of_cons; [split; [by left | done]|].
      apply IH in Hx as [? Hnew]. split; [by right | set_solver].
Qed.

Lemma dedupFrom_keys seen arr k :
  k ∈ key <$> dedupFrom key seen arr ↔ k ∈ key <$> arr ∧ k ∉ seen.
Proof.
  revert seen. induction arr as [|item rest IH]; intros seen; simpl.
  - set_solver.
  - destruct (decide (key item ∈ seen)) as [Hin|Hout].
    + rewrite IH. set_solver.
    + rewrite fmap_cons, !elem_of_cons, IH.
      destruct (decide (k = key item)) as [->|Hne]; set_solver.
Qed.

Lemma NoDup_dedupFrom seen arr : NoDup (key <$> dedupFrom key seen arr).
Proof.
  revert seen. induction arr as [|item rest IH]; intros seen; simpl.
  - constructor.
  - destruct (decide (key item ∈ seen)); [apply IH|].
    rewrite fmap_cons. constructor; [|apply IH].
    rewrite dedupFrom_keys. set_solver.
Qed.

(** A list without repeated keys, none of them seen, passes unchanged. *)
Lemma dedupFrom_fixed seen arr :
  NoDup (key <$> arr) → (∀ x, x ∈ arr → key x ∉ seen) → dedupFrom key seen arr = arr.
Proof.
  revert seen. induction arr as [|item rest IH]; intros seen Hnd Hnew; simpl; [done|].
  rewrite fmap_cons in Hnd. apply NoDup_cons in Hnd as [Hhead Hnd].
  destruct (decide (key item ∈ seen)) as [Hin|_].
  - exfalso. by apply (Hnew item); [left|].
  - f_equal. apply IH; [done|].
    intros x Hx. rewrite elem_of_union, elem_of_singleton.
    intros [Heq|Hseen].
    + apply Hhead. rewrite <- Heq. by apply list_elem_of_fmap_2.
    + by apply (Hnew x); [right|].
Qed.

Lemma dedupBy_idempotent arr : dedupBy key (dedupBy key arr) = dedupBy key arr.
Proof.
  unfold dedupBy. apply dedupFrom_fixed.
  - apply NoDup_dedupFrom.
  - intros x _. apply not_elem_of_empty.
Qed.

Lemma dedupBy_keys arr k : k ∈ key <$> dedupBy key arr ↔ k ∈ key <$> arr.
Proof. unfold dedupBy. rewrite dedupFrom_keys. set_solver. Qed.

Lemma withoutDirect_keys direct indirect k :
  k ∈ key <$> withoutDirect key direct indirect
  ↔ k ∈ key <$> indirect ∧ k ∉ key <$> direct.
Proof.
  unfold withoutDirect. split.
  - intros (x & -> & Hx)%list_elem_of_fmap.
    apply list_elem_of_filter in Hx as [Hnot Hx].
    rewrite elem_of_list_to_set in Hnot. split; [|done].
    by apply list_elem_of_fmap_2.
  - intros [(x & -> & Hx)%list_elem_of_fmap Hnot].
    apply list_elem_of_fmap_2, list_elem_of_filter.
    by rewrite elem_of_list_to_set.
Qed.

(** The two steps of the reconciliation, in the order of the script. *)
Lemma reconcile_lists direct indirect :
  Reconciled key (dedupBy key direct)
    (dedupBy key (withoutDirect key direct indirect)).
Proof.
  split; [|split; apply NoDup_dedupFrom].
  intros k Hdirect Hindirect.
  rewrite dedupBy_keys in Hdirect.
  rewrite dedupBy_keys, withoutDirect_keys in Hindirect.
  by destruct Hindirect.
Qed.

(** Two records with one key count as one record. *)
Lemma dedupBy_collision r1 r2 : key r1 = key r2 → dedupBy key [r1; r2] = [r1].
Proof.
  intros Heq. unfold dedupBy. simpl.
  rewrite decide_False by apply not_elem_of_empty.
  rewrite decide_True by (rewrite Heq; set_solver). done.
Qed.

Lemma withoutDirect_collision r1 r2 :
  key r1 = key r2 → withoutDirect key [r1] [r2] = [].
Proof.
  intros Heq. unfold withoutDirect. simpl.
  rewrite filter_cons_False; [done|].
  rewrite Heq. set_solver.
Qed.
End ByKeyFacts.

(** C1. After the reconciliation every file's direct and indirect asset
    impacts, and every file's direct and indirect column impacts, share no
    identity key, and neither list holds an identity key twice. *)
Theorem reconciliation_disjoint_unique
    (fileImpacts : list (string * FileImpactSet))
    (columnImpacts : list (string * ColumnImpactSet)) :
  Forall (λ entry, Reconciled uniqueKey (fi_direct entry.2) (fi_indirect entry.2))
         (reconcileFileImpacts fileImpacts)
  ∧ Forall (λ entry, Reconciled columnUniqueKey (cs_direct entry.2) (cs_indirect entry.2))
           (reconcileColumnImpacts columnImpacts).
Proof.
  unfold reconcileFileImpacts, reconcileColumnImpacts, onEntries.
  split; rewrite <- list_fmap_compose; apply Forall_fmap, Forall_true;
    intros [filePath impacts]; apply reconcile_lists.
Qed.

(** C8. Deduplicating an already deduplicated impact list changes nothing,
    for asset-level and for column-level lists. *)
Theorem dedup_idempotent (arr : list ImpactRecord) (columns : list ColumnImpactRecord) :
  dedup (dedup arr) = dedup arr
  ∧ columnDedup (columnDedup columns) = columnDedup columns.
Proof. split; apply dedupBy_idempotent. Qed.

(** C9. The identity key is the three fields joined by a dash, so records
    with different identity tuples can have one key: such a pair exists for
    asset records and for column records, deduplication keeps only the first
    of the pair, and the precedence filter removes the second from the
    indirect list when the first is direct. *)
Theorem identity_key_collision :
  (∃ r1 r2 : ImpactRecord,
      identity r1 ≠ identity r2 ∧ uniqueKey r1 = uniqueKey r2
      ∧ dedup [r1; r2] = [r1] ∧ withoutDirect uniqueKey [r1] [r2] = [])
  ∧ (∃ c1 c2 : ColumnImpactRecord,
        columnIdentity c1 ≠ columnIdentity c2 ∧ columnUniqueKey c1 = columnUniqueKey c2
        ∧ columnDedup [c1; c2] = [c1] ∧ withoutDirect columnUniqueKey [c1] [c2] = []).
Proof.
  split.
  - exists salesEuWest, salesEuWest'.
    assert (uniqueKey salesEuWest = uniqueKey salesEuWest') as Hkey by reflexivity.
    split; [discriminate|]. split; [done|].
    split; [by apply dedupBy_collision | by apply withoutDirect_collision].
  - exists ordersNetTotal, ordersNetTotal'.
    assert (columnUniqueKey ordersNetTotal = columnUniqueKey ordersNetTotal') as Hkey
      by reflexivity.
    split; [discriminate|]. split; [done|].
    split; [by apply dedupBy_collision | by apply withoutDirect_collision].
Qed.

(** The collision in a reconciliation: the second record is dropped from
    the indirect impacts of the file although its identity differs. *)
Example collision_reconciled :
  reconcileFileImpacts
    [("models/orders.yml",
      {| fi_direct := [salesEuWest]; fi_indirect := [salesEuWest'];
         fi_taskName := Some "orders" |})]
  = [("models/orders.yml",
      {| fi_direct := [salesEuWest]; fi_indirect := []; fi_taskName := Some "orders" |})].
Proof. vm_compute. reflexivity. Qed.

(** ** Strings *)

Lemma app_cons (a : ascii) (s t : string) : String a s +:+ t = String a (s +:+ t).
Proof. reflexivity. Qed.

Lemma app_empty_l (t : string) : "" +:+ t = t.
Proof. reflexivity. Qed.

Lemma startsWith_spec (s t : string) : startsWith s t = true ↔ ∃ post, s = t +:+ post.
Proof.
  revert s. induction t as [|b t IH]; intros s.
  - destruct s; simpl; split; eauto.
  - destruct s as [|a s]; simpl.
    + split; [done | by intros [post ?]].
    + destruct (Ascii.eqb a b) eqn:Hab.
      * apply Ascii.eqb_eq in Hab as ->. rewrite IH. split.
        -- intros [post ->]. by exists post.
        -- intros [post Heq]. rewrite app_cons in Heq. injection Heq as ->. by exists post.
      * apply Ascii.eqb_neq in Hab. split; [done|].
        intros [post Heq]. rewrite app_cons in Heq. by injection Heq as -> _.
Qed.

Lemma includes_spec (s t : string) : includes s t = true ↔ Substring t s.
Proof.
  unfold Substring. induction s as [|a s IH]; cbn [includes].
  - rewrite orb_false_r, startsWith_spec. split.
    + intros [post ->]. by exists "", post.
    + intros ([|? pre] & post & Heq); [by exists post | by rewrite app_cons in Heq].
  - rewrite orb_true_iff, startsWith_spec, IH. split.
    + intros [[post ->]|(pre & post & ->)].
      * by exists "", post.
      * by exists (String a pre), post.
    + intros ([|b pre] & post & Heq).
      * left. by exists post.
      * right. rewrite app_cons in Heq. injection Heq as -> ->. by exists pre, post.
Qed.

Lemma stripQuotes_app (s t : string) :
  stripQuotes (s +:+ t) = stripQuotes s +:+ stripQuotes t.
Proof.
  induction s as [|a s IH]; [done|].
  rewrite app_cons. simpl. destruct (isQuote a); [done|].
  by rewrite app_cons, IH.
Qed.

Lemma stripQuotes_substring (s t : string) :
  Substring t s → Substring (stripQuotes t) (stripQuotes s).
Proof.
  intros (pre & post & ->). exists (stripQuotes pre), (stripQuotes post).
  by rewrite !stripQuotes_app.
Qed.

Lemma rev_app_nonempty (t acc : string) : acc ≠ "" → String.rev_app t acc ≠ "".
Proof. revert acc. induction t as [|c t IH]; intros acc Hacc; [done | by apply IH]. Qed.

Lemma endsWith_nonempty (s t : string) : endsWith s t = true → t ≠ "" → s ≠ "".
Proof.
  intros Hends Ht ->. destruct t as [|b t]; [done|].
  unfold endsWith, String.rev in Hends. cbn [String.rev_app] in Hends.
  pose proof (rev_app_nonempty t (String b "")) as Hrev.
  destruct (String.rev_app t (String b "")); [by apply Hrev | done].
Qed.

(** ** Column matching *)

Lemma fieldName_lower (n : string) :
  (if String.eqb n "" then "" else toLowerCase n) = toLowerCase n.
Proof. destruct (String.eqb_spec n "") as [->|]; done. Qed.

Lemma eqb_true_iff (s t : string) : String.eqb s t = true ↔ s = t.
Proof. apply String.eqb_eq. Qed.

(** The three strategies of the callback, read as a proposition. *)
Lemma matchesColumn_true (fieldName changedCol : string) :
  matchesColumn (Some fieldName) changedCol = true
  ↔ toLowerCase fieldName = toLowerCase changedCol
    ∨ Substring (toLowerCase changedCol) (toLowerCase fieldName)
    ∨ Substring (toLowerCase fieldName) (toLowerCase changedCol)
    ∨ stripQuotes (toLowerCase fieldName) = stripQuotes (toLowerCase changedCol).
Proof.
  unfold matchesColumn. rewrite fieldName_lower.
  rewrite <- !includes_spec, <- !eqb_true_iff.
  destruct (String.eqb (toLowerCase fieldName) (toLowerCase changedCol)); [tauto|].
  destruct (includes (toLowerCase fieldName) (toLowerCase changedCol)); [simpl; tauto|].
  destruct (includes (toLowerCase changedCol) (toLowerCase fieldName)); [simpl; tauto|].
  simpl.
  destruct (String.eqb (stripQuotes (toLowerCase fieldName))
                       (stripQuotes (toLowerCase changedCol))); intuition congruence.
Qed.

(** Whatever the callback accepts, the rule of the specification accepts. *)
Lemma matchesColumn_specRelevant (fieldName changedCol : string) :
  matchesColumn (Some fieldName) changedCol = true → specRelevant fieldName changedCol = true.
Proof.
  rewrite matchesColumn_true. unfold specRelevant.
  rewrite !orb_true_iff, !includes_spec, eqb_true_iff.
  intros [Heq|[Hsub|[Hsub|Heq]]].
  - left; left. by rewrite Heq.
  - left; right. by apply stripQuotes_substring.
  - right. by apply stripQuotes_substring.
  - by left; left.
Qed.

(** A field without a name matches every changed column: the empty string
    is contained in every name. *)
Lemma matchesColumn_unnamed (changedCol : string) : matchesColumn None changedCol = true.
Proof.
  unfold matchesColumn.
  destruct (String.eqb "" (toLowerCase changedCol)); [done|].
  assert (includes (toLowerCase changedCol) "" = true) as ->.
  { apply includes_spec. by exists "", (toLowerCase changedCol). }
  by rewrite orb_true_r.
Qed.

Lemma isImpacted_true (field_name : option string) (changedColumns : list string) :
  isImpacted field_name changedColumns = true
  ↔ ∃ changedCol, changedCol ∈ changedColumns ∧ matchesColumn field_name changedCol = true.
Proof.
  unfold isImpacted. rewrite existsb_exists.
  by setoid_rewrite list_elem_of_In.
Qed.

(** C2, as the specification states it, fails: with the changed column
    written in double quotes, the stripped names [order_id] and [id]
    contain one another, but the callback compares the quoted name. *)
Lemma quoted_changed_column_not_matched :
  specRelevant "order_id" (inDoubleQuotes "ID") = true
  ∧ matchesColumn (Some "order_id") (inDoubleQuotes "ID") = false.
Proof. split; reflexivity. Qed.

(** C2, amended.  A lineage field is marked relevant to a changed column
    if and only if the lower-cased names are equal, or one lower-cased name
    contains the other, or the lower-cased names are equal once the quote
    characters are stripped; every field so marked is relevant by the rule
    of the specification, and the two quoted examples match. *)
Theorem matchesColumn_rule (fieldName changedCol : string) :
  (matchesColumn (Some fieldName) changedCol = true
   ↔ toLowerCase fieldName = toLowerCase changedCol
     ∨ Substring (toLowerCase changedCol) (toLowerCase fieldName)
     ∨ Substring (toLowerCase fieldName) (toLowerCase changedCol)
     ∨ stripQuotes (toLowerCase fieldName) = stripQuotes (toLowerCase changedCol))
  ∧ (matchesColumn (Some fieldName) changedCol = true
     → specRelevant fieldName changedCol = true)
  ∧ matchesColumn (Some (inDoubleQuotes "Order_ID")) "order_id" = true
  ∧ matchesColumn (Some "order_id") (inDoubleQuotes "Order_ID") = true
  ∧ matchesColumn (Some (inBackticks "amount")) "Amount" = true
  ∧ matchesColumn (Some "Amount") (inBackticks "amount") = true.
Proof.
  split; [apply matchesColumn_true|].
  split; [apply matchesColumn_specRelevant|].
  repeat split; reflexivity.
Qed.

(** ** Output options *)

Lemma hasKey_unrecognized (keys : list string) (k : string) :
  Forall (λ key, key ∉ recognizedKeys) keys → k ∈ recognizedKeys → hasKey keys k = false.
Proof.
  intros Hnone Hk. apply bool_decide_eq_false. intros Hin.
  rewrite Forall_forall in Hnone. by apply (Hnone k).
Qed.

(** C3, as the specification states it, fails: a non-empty input without
    any recognized key switches every flag off. *)
Lemma unrecognized_keys_disable_all :
  noRecognizedKey "verbose, all"
  ∧ parseConfigurableKeys (JStr "verbose, all") = allDisabled.
Proof. split; [|reflexivity]. unfold noRecognizedKey. compute_done. Qed.

(** C3, amended.  When the configurable-keys input is absent (not a string,
    or the empty string) all display flags are enabled; a non-empty string
    that contains no recognized option key disables all of them. *)
Theorem parseConfigurableKeys_absent_or_unrecognized :
  (∀ keysString, absentKeys keysString → parseConfigurableKeys keysString = allEnabled)
  ∧ (∀ s, s ≠ "" → noRecognizedKey s → parseConfigurableKeys (JStr s) = allDisabled).
Proof.
  split.
  - intros [| | | |s| |] Habsent; simpl in *; try done. by rewrite Habsent.
  - intros s Hs Hnone. unfold parseConfigurableKeys.
    destruct (String.eqb_spec s "") as [|_]; [done|].
    unfold noRecognizedKey in Hnone.
    rewrite !(hasKey_unrecognized _ _ Hnone); [done|..];
      apply list_elem_of_In; simpl; tauto.
Qed.

Lemma parseConfigurableKeys_absent_or_unrecognized_witness :
  parseConfigurableKeys JUndefined = allEnabled
  ∧ parseConfigurableKeys (JStr "") = allEnabled
  ∧ parseConfigurableKeys (JStr "summary") = allDisabled.
Proof.
  destruct parseConfigurableKeys_absent_or_unrecognized as [Habsent Hnone].
  split; [by apply Habsent|]. split; [by apply Habsent|].
  apply Hnone; [done|]. unfold noRecognizedKey. compute_done.
Defined.

(** The scenario of the specification: two asset keys. *)
Example parse_direct_asset_keys :
  parseConfigurableKeys (JStr "direct_asset_count,direct_asset_list")
  = {| showDirectColumnCount := false; showIndirectColumnCount := false;
       showDirectAssetCount := true; showIndirectAssetCount := false;
       showDirectColumnList := false; showIndirectColumnList := false;
       showDirectAssetList := true; showIndirectAssetList := false;
       showYmlColumnChanges := false |}.
Proof. reflexivity. Qed.

(** ** URL resolver *)

(** C4, as the specification states it, fails: a record with a redirect id
    and no connection id does not lack both identifiers, and the rule of
    the specification routes it to the measures page, but the resolver
    returns the placeholder. *)
Lemma one_identifier_missing_gives_placeholder :
  constructItemUrl unconnectedAsset exampleBase = "#"
  ∧ specItemUrl unconnectedAsset exampleBase
    = "https://app.example.com/observe/data/42/measures".
Proof. split; reflexivity. Qed.

Section ResolverFacts.
Context `{UrlApi}.

(** C4, amended.  The asset-level resolver returns the placeholder when
    the base address is absent, when its construction throws, or when the
    record lacks the connection id or the redirect id (either one);
    otherwise it routes by asset group: pipeline to the transformation or
    the task page, report to the worksheet page, data to the measures
    page, and any other group to the placeholder. *)
Theorem constructItemUrl_routes (item : ImpactRecord) (baseUrl : string) :
  (baseUrl = "" → constructItemUrl item baseUrl = "#")
  ∧ (URL_new baseUrl = None → constructItemUrl item baseUrl = "#")
  ∧ (truthy (ir_connection_id item) = false ∨ truthy (ir_redirect_id item) = false →
     constructItemUrl item baseUrl = "#")
  ∧ (∀ url,
       baseUrl ≠ "" → URL_new baseUrl = Some url →
       truthy (ir_connection_id item) = true → truthy (ir_redirect_id item) = true →
       let page path := URL_toString (URL_setPathname url path) in
       let id := js_toString (ir_redirect_id item) in
       (ir_asset_group item = JStr "pipeline" → truthy (ir_is_transform item) = true →
        constructItemUrl item baseUrl
        = page ("/observe/pipeline/transformation/" +:+ id +:+ "/run"))
       ∧ (ir_asset_group item = JStr "pipeline" → truthy (ir_is_transform item) = false →
          constructItemUrl item baseUrl = page ("/observe/pipeline/task/" +:+ id +:+ "/run"))
       ∧ (ir_asset_group item = JStr "report" →
          constructItemUrl item baseUrl
          = page ("/observe/report/worksheet/" +:+ id +:+ "/overview"))
       ∧ (ir_asset_group item = JStr "data" →
          constructItemUrl item baseUrl = page ("/observe/data/" +:+ id +:+ "/measures"))
       ∧ (ir_asset_group item ≠ JStr "pipeline" → ir_asset_group item ≠ JStr "report" →
          ir_asset_group item ≠ JStr "data" → constructItemUrl item baseUrl = "#")).
Proof.
  unfold constructItemUrl. split; [by intros ->|].
  split; [intros ->; by destruct (String.eqb baseUrl "")|].
  split.
  - intros Hmissing. destruct (String.eqb baseUrl ""); [done|].
    destruct (URL_new baseUrl); [|done].
    by destruct Hmissing as [-> | ->]; rewrite ?orb_true_r.
  - intros url Hbase -> -> ->. simpl.
    destruct (String.eqb_spec baseUrl "") as [|_]; [done|].
    unfold routeItem, withPath, transformationPath, taskPath, worksheetPath, measuresPath.
    repeat split.
    + by intros -> ->.
    + by intros -> ->.
    + by intros ->.
    + by intros ->.
    + intros Hp Hr Hd.
      destruct (ir_asset_group item) as [| | | |group| |]; try done. simpl.
      destruct (String.eqb_spec group "pipeline") as [->|_]; [done|].
      destruct (String.eqb_spec group "report") as [->|_]; [done|].
      by destruct (String.eqb_spec group "data") as [->|_].
Qed.
End ResolverFacts.

Lemma constructItemUrl_routes_witness :
  constructItemUrl transformAsset exampleBase
  = "https://app.example.com/observe/pipeline/transformation/a1b2/run".
Proof.
  destruct (constructItemUrl_routes transformAsset exampleBase) as (_ & _ & _ & Hroute).
  destruct (Hroute {| su_origin := exampleBase; su_pathname := "/" |}) as [Htransform _];
    [done..|].
  by apply Htransform.
Defined.

(** ** Column extraction *)

Lemma named_truthy (cols : list Column) :
  Forall (λ col, truthy (col_name col) = true) (named cols).
Proof.
  apply Forall_forall. intros col [Hname _]%list_elem_of_filter.
  by apply Is_true_true.
Qed.

Lemma extractColumnsFromSchema_truthy (loaded : option JsVal) :
  Forall (λ col, truthy (col_name col) = true) (extractColumnsFromSchema loaded).
Proof.
  unfold extractColumnsFromSchema, extractColumnsTry.
  destruct loaded as [schema|]; simpl; [|constructor].
  destruct (truthy schema); simpl; [|constructor].
  destruct (coalesceColumns schema) as [cols|]; simpl; [|constructor].
  destruct (truthy cols).
  - destruct (arrayMap coalesceColumn cols); simpl; [apply named_truthy | constructor].
  - destruct (getProp schema "columns") as [columns|]; simpl; [|constructor].
    destruct (truthy columns); simpl; [|constructor].
    destruct (arrayMap fallbackColumn columns); simpl; [apply named_truthy | constructor].
Qed.

(** In the Coalesce branch every record stems from an entry that carries
    the record's name. *)
Lemma coalesceColumn_name (entry : JsVal) (col : Column) :
  coalesceColumn entry = Some col → truthy (col_name col) = true →
  getProp entry "name" = Some (col_name col).
Proof.
  unfold coalesceColumn. intros Hcol Hname.
  destruct (getProp entry "name") as [name|]; simpl in Hcol; [|done].
  destruct (getProp entry "dataType"); simpl in Hcol; [|done].
  destruct (getProp entry "nullable"); simpl in Hcol; [|done].
  destruct (getProp entry "primaryKey"); simpl in Hcol; [|done].
  injection Hcol as <-. simpl in *. unfold js_or in *.
  by destruct (truthy name).
Qed.

Lemma coalesce_branch_entries (schema : JsVal) (items : list JsVal) (col : Column) :
  coalesceColumns schema = Some (JArr items) →
  col ∈ extractColumnsFromSchema (Some schema) →
  ∃ entry, entry ∈ items ∧ getProp entry "name" = Some (col_name col).
Proof.
  unfold extractColumnsFromSchema, extractColumnsTry. simpl. intros ->.
  destruct (truthy schema); simpl; [|by intros ?%elem_of_nil].
  destruct (mapM coalesceColumn items) as [cols|] eqn:Hmap; simpl;
    [|by intros ?%elem_of_nil].
  intros [Hname Hcol]%list_elem_of_filter.
  apply mapM_Some in Hmap.
  apply list_elem_of_lookup in Hcol as [i Hi].
  destruct (Forall2_lookup_r _ _ _ _ _ Hmap Hi) as (entry & Hentry & Hmade).
  exists entry. split; [by eapply list_elem_of_lookup_2|].
  apply coalesceColumn_name; [done | by apply Is_true_true].
Qed.

(** C10, as stated, fails in the fallback branch: an entry of a top-level
    [columns] sequence that has no name is returned, with the entry itself
    as its name. *)
Lemma fallback_keeps_unnamed_entry :
  lacksName (JObj [("dataType", JStr "NUMBER")])
  ∧ extractColumnsFromYML plainColumnsText
    = [nameOnly (JStr "id"); nameOnly (JObj [("dataType", JStr "NUMBER")])].
Proof. split; [by exists JUndefined | reflexivity]. Qed.

Section ExtractionFacts.
Context `{YamlApi}.

(** C10, amended.  [extractColumnsFromYML] returns a list on every input
    and every record in it has a truthy name (a string name is
    non-empty): an exception in the body, a parse failure, an empty
    document and a schema without a recognized columns section yield the
    empty list, and in the Coalesce
    section every returned record stems from an entry that has the
    record's name, so an entry lacking a name is filtered out there. *)
Theorem extractColumnsFromYML_named (content : string) :
  Forall (λ col, truthy (col_name col) = true ∧ col_name col ≠ JStr "")
         (extractColumnsFromYML content)
  ∧ (extractColumnsTry (yaml_load content) = None → extractColumnsFromYML content = [])
  ∧ (yaml_load content = None → extractColumnsFromYML content = [])
  ∧ (∀ schema, yaml_load content = Some schema → truthy schema = false →
       extractColumnsFromYML content = [])
  ∧ (∀ schema, yaml_load content = Some schema → noColumnsSection schema →
       extractColumnsFromYML content = [])
  ∧ (∀ schema items col,
       yaml_load content = Some schema → coalesceColumns schema = Some (JArr items) →
       col ∈ extractColumnsFromYML content →
       ∃ entry, entry ∈ items ∧ getProp entry "name" = Some (col_name col)
                ∧ ¬ lacksName entry).
Proof.
  unfold extractColumnsFromYML. split; [|split; [|split; [|split; [|split]]]].
  - eapply Forall_impl; [apply extractColumnsFromSchema_truthy|].
    intros col Hname. simpl in Hname. split; [done|].
    intros Heq. by rewrite Heq in Hname.
  - unfold extractColumnsFromSchema. by intros ->.
  - by intros ->.
  - intros schema -> Hfalsy. unfold extractColumnsFromSchema, extractColumnsTry.
    simpl. by rewrite Hfalsy.
  - intros schema -> [(v & Hchain & Hv) (w & Hcolumns & Hw)].
    unfold extractColumnsFromSchema, extractColumnsTry. simpl.
    destruct (truthy schema); simpl; [|done].
    rewrite Hchain. simpl. rewrite Hv, Hcolumns. simpl. by rewrite Hw.
  - intros schema items col Hload Hchain Hcol. rewrite Hload in Hcol.
    destruct (coalesce_branch_entries _ _ _ Hchain Hcol) as (entry & Hentry & Hname).
    exists entry. split; [done|]. split; [done|].
    intros (name & Hname' & Hfalsy). rewrite Hname in Hname'. injection Hname' as <-.
    pose proof (extractColumnsFromSchema_truthy (Some schema)) as Htruthy.
    rewrite Forall_forall in Htruthy. rewrite (Htruthy col Hcol) in Hfalsy. done.
Qed.
End ExtractionFacts.

Lemma extractColumnsFromYML_named_witness :
  extractColumnsFromYML ordersHeadText = [column "id"; column "total"; column "tax"]
  ∧ extractColumnsFromYML "" = []
  ∧ extractColumnsFromYML "columns: [" = []
  ∧ ∃ entry, entry ∈ [JObj [("name", JStr "id")]; JObj [("name", JStr "total")];
                      JObj [("name", JStr "tax")]; JObj [("dataType", JStr "NUMBER")]]
             ∧ getProp entry "name" = Some (JStr "tax").
Proof.
  split; [reflexivity|].
  destruct (extractColumnsFromYML_named "") as (_ & _ & _ & Hempty & _).
  split; [by apply (Hempty JUndefined)|].
  destruct (extractColumnsFromYML_named "columns: [") as (_ & _ & Hthrow & _).
  split; [by apply Hthrow|].
  destruct (extractColumnsFromYML_named ordersHeadText) as (_ & _ & _ & _ & _ & Hentries).
  destruct (Hentries ordersHeadDoc _ (column "tax") eq_refl eq_refl)
    as (entry & Hentry & Hname & _); [|by exists entry].
  apply list_elem_of_lookup. by exists 2.
Defined.

(** ** Column delta *)

Lemma sameValueZero_true (a b : JsVal) : sameValueZero a b = true ↔ primitive a ∧ a = b.
Proof.
  split.
  - destruct a as [| |x|x|x|xs|xs], b as [| |y|y|y|ys|ys]; simpl; try done.
    + intros Hxy. split; [done|]. f_equal. by apply Bool.eqb_prop.
    + intros ->%Z.eqb_eq. done.
    + intros ->%String.eqb_eq. done.
  - intros [Hprim <-]. destruct a as [| |x|x|x|xs|xs]; simpl in *; try done.
    + by destruct x.
    + apply Z.eqb_refl.
    + apply String.eqb_refl.
Qed.

(** [includes] finds a name exactly when it is a primitive value that
    occurs in the list. *)
Lemma namesInclude_true (names : list JsVal) (name : JsVal) :
  namesInclude names name = true ↔ primitive name ∧ name ∈ names.
Proof.
  unfold namesInclude. rewrite existsb_exists. split.
  - intros (other & Hin & [Hprim ->]%sameValueZero_true).
    split; [done | by apply list_elem_of_In].
  - intros [Hprim Hin]. exists name. split; [by apply list_elem_of_In|].
    by apply sameValueZero_true.
Qed.

Lemma filter_not_included (names : list JsVal) (cols : list Column) :
  filter (λ col, ¬ namesInclude names (col_name col)) cols
  = filter (λ col, namesInclude names (col_name col) = false) cols.
Proof.
  apply list_filter_iff. intros col.
  destruct (namesInclude names (col_name col)); simpl; split.
  - intros Hnot. by exfalso; apply Hnot.
  - done.
  - done.
  - by intros _ [].
Qed.

Lemma filter_none_included (cols : list Column) :
  filter (λ col, namesInclude [] (col_name col) = false) cols = cols.
Proof. induction cols as [|col cols IH]; [done|]. rewrite filter_cons_True by done. by f_equal. Qed.

(** C6, as stated, fails on a file whose after-content is present and
    empty: the delta of the specification reports the two before-columns
    as removed, the script skips the file. *)
Lemma emptied_file_is_skipped :
  foldl (specProcessFile (JStr "base") (JStr "head")) noChanges
        (ymlFiles ["models/legacy.yml"])
  = {| added := [];
       removed := changesOf "models/legacy.yml" [column "id"; column "total"];
       modified := [] |}
  ∧ extractChangedColumns (JStr "base") (JStr "head") ["models/legacy.yml"] = noChanges.
Proof. split; reflexivity. Qed.

Section DeltaFacts.
Context `{YamlApi} `{GitApi}.

(** C6, amended.  For a changed YAML file whose after-content is absent
    or empty nothing is recorded.  Otherwise the added columns are the
    after-columns whose name is not among the before-names and the removed
    columns are the before-columns whose name is not among the
    after-names, in their order, appended to what was recorded so far;
    with the before-content absent every after-column is added and none
    is removed. *)
Theorem processFile_delta (baseSha headSha : JsVal) (changedColumns : ChangedColumns)
    (file : string) :
  let baseContent := if truthy baseSha then getFileContent baseSha file else None in
  let headContent := getFileContent headSha file in
  (headContent = None ∨ headContent = Some "" →
   processFile baseSha headSha changedColumns file = changedColumns)
  ∧ (∀ content, headContent = Some content → content ≠ "" →
       let baseCols := baseColumns baseContent in
       let headCols := extractColumnsFromYML content in
       let baseColNames := col_name <$> baseCols in
       let headColNames := col_name <$> headCols in
       processFile baseSha headSha changedColumns file
       = {| added :=
              added changedColumns
              ++ changesOf file
                   (filter (λ col, namesInclude baseColNames (col_name col) = false) headCols);
            removed :=
              removed changedColumns
              ++ changesOf file
                   (filter (λ col, namesInclude headColNames (col_name col) = false) baseCols);
            modified := modified changedColumns |}
       ∧ (baseContent = None →
          processFile baseSha headSha changedColumns file
          = {| added := added changedColumns ++ changesOf file headCols;
               removed := removed changedColumns;
               modified := modified changedColumns |})).
Proof.
  intros baseContent headContent. split.
  - unfold processFile. fold headContent. by intros [-> | ->].
  - intros content Hhead Hcontent baseCols headCols baseColNames headColNames.
    assert (processFile baseSha headSha changedColumns file
            = {| added :=
                   added changedColumns
                   ++ changesOf file
                        (filter (λ col, namesInclude baseColNames (col_name col) = false)
                                headCols);
                 removed :=
                   removed changedColumns
                   ++ changesOf file
                        (filter (λ col, namesInclude headColNames (col_name col) = false)
                                baseCols);
                 modified := modified changedColumns |}) as Hdelta.
    { unfold processFile. fold headContent baseContent. rewrite Hhead.
      destruct (String.eqb_spec content "") as [|_]; [done|].
      unfold columnDelta. fold baseCols headCols baseColNames headColNames.
      by rewrite !filter_not_included. }
    split; [done|]. intros Hbase. rewrite Hdelta.
    subst baseColNames baseCols. rewrite Hbase. simpl.
    by rewrite filter_none_included, app_nil_r.
Qed.
End DeltaFacts.

(** The scenario of the specification, with the files of the sample
    repository: [orders.yml] had the columns id and total and has id, total
    and tax; [new.yml] has no before-content. *)
Lemma processFile_delta_witness :
  processFile (JStr "base") (JStr "head") noChanges "models/orders.yml"
  = {| added := changesOf "models/orders.yml" [column "tax"]; removed := []; modified := [] |}
  ∧ processFile (JStr "base") (JStr "head") noChanges "models/new.yml"
    = {| added := changesOf "models/new.yml" [column "id"; column "total"];
         removed := []; modified := [] |}
  ∧ processFile (JStr "base") (JStr "head") noChanges "models/gone.yml" = noChanges.
Proof.
  destruct (processFile_delta (JStr "base") (JStr "head") noChanges "models/orders.yml")
    as [_ Horders].
  destruct (Horders ordersHeadText eq_refl ltac:(done)) as [-> _].
  split; [reflexivity|].
  destruct (processFile_delta (JStr "base") (JStr "head") noChanges "models/new.yml")
    as [_ Hnew].
  destruct (Hnew ordersBaseText eq_refl ltac:(done)) as [_ Hadded].
  rewrite Hadded by done.
  split; [reflexivity|].
  destruct (processFile_delta (JStr "base") (JStr "head") noChanges "models/gone.yml")
    as [Hgone _].
  apply Hgone. by left.
Defined.

Example extractChangedColumns_scenario :
  extractChangedColumns (JStr "base") (JStr "head")
    ["README.md"; "models/orders.yml"; "models/legacy.yml"]
  = {| added := changesOf "models/orders.yml" [column "tax"]; removed := []; modified := [] |}.
Proof. reflexivity. Qed.

(** ** Task matching *)

(** Reading a name after an assignment: the assigned file, or the
    prototype for the name [__proto__]; the other names read as before. *)
Lemma getModelFile_set (modelName file : string) (modelNameToFileMap : gmap string string) :
  getModelFile modelName (setModelFile modelName file modelNameToFileMap)
  = Some (if String.eqb modelName "__proto__" then ObjectPrototype else ChangedFile file).
Proof.
  unfold getModelFile, setModelFile.
  destruct (String.eqb modelName "__proto__"); [done|]. by rewrite lookup_insert_eq.
Qed.

Lemma getModelFile_set_ne (modelName model file : string)
    (modelNameToFileMap : gmap string string) :
  modelName ≠ model →
  getModelFile model (setModelFile modelName file modelNameToFileMap)
  = getModelFile model modelNameToFileMap.
Proof.
  intros Hne. unfold getModelFile, setModelFile.
  destruct (String.eqb model "__proto__"); [done|].
  destruct (String.eqb modelName "__proto__"); [done|]. by rewrite lookup_insert_ne.
Qed.

Lemma setModelFile_lookup (modelName model file stored : string)
    (modelNameToFileMap : gmap string string) :
  setModelFile modelName file modelNameToFileMap !! model = Some stored →
  stored = file ∨ modelNameToFileMap !! model = Some stored.
Proof.
  unfold setModelFile. destruct (String.eqb modelName "__proto__"); [by right|].
  destruct (decide (modelName = model)) as [->|Hne].
  - rewrite lookup_insert_eq. intros [= <-]. by left.
  - rewrite lookup_insert_ne by done. by right.
Qed.

(** Every recorded model reads a file path, and the path is that of a
    changed file, which is not empty, or the prototype object. *)
Lemma recordModel_files (modelNameOf : string → option string)
    (acc : list string * gmap string string) (file : string) :
  file ≠ "" → modelsHaveFiles acc → modelsHaveFiles (recordModel modelNameOf acc file).
Proof.
  intros Hfile Hinv. destruct acc as [models map]. unfold recordModel.
  destruct (modelNameOf file) as [modelName|]; [|done].
  destruct (String.eqb modelName ""); [done|].
  assert (∃ filePath,
            getModelFile modelName (setModelFile modelName file map) = Some filePath
            ∧ filePath ≠ ChangedFile "") as Hnew.
  { rewrite getModelFile_set. eexists. split; [done|].
    destruct (String.eqb modelName "__proto__"); [done|]. by intros [= ->]. }
  intros model [Hold| ->%list_elem_of_singleton]%elem_of_app; simpl; [|done].
  destruct (decide (modelName = model)) as [->|Hne]; [done|].
  rewrite getModelFile_set_ne by done. by apply Hinv.
Qed.

Lemma collectModels_files (modelNameOf : string → option string) (files : list string) :
  Forall (λ file, file ≠ "") files → modelsHaveFiles (collectModels modelNameOf files).
Proof.
  unfold collectModels.
  assert (modelsHaveFiles ([], ∅)) as Hinit by (by intros ? ?%elem_of_nil).
  revert Hinit. generalize (([], ∅) : list string * gmap string string).
  induction files as [|file files IH]; intros acc Hinv Hfiles; [done|].
  apply Forall_cons in Hfiles as [Hfile Hfiles]. simpl.
  apply IH; [by apply recordModel_files | done].
Qed.

Lemma keepWithFile_task (entry : Task * JsVal * option FilePath) (matched : MatchedTask) :
  keepWithFile entry = Some matched → mt_task matched = entry.1.1.
Proof.
  destruct entry as [[task entity] [[path|]|]]; simpl; [| |done].
  - destruct (String.eqb path ""); [done|]. by intros [= <-].
  - by intros [= <-].
Qed.

(** The last filter keeps an entry with a truthy file path as it is. *)
Lemma keepWithFile_truthy (task : Task) (entity : JsVal) (filePath : FilePath) :
  filePath ≠ ChangedFile "" →
  keepWithFile (task, entity, Some filePath)
  = Some {| mt_task := task; mt_entity := entity; mt_filePath := filePath |}.
Proof.
  intros Htruthy. destruct filePath as [path|]; simpl; [|done].
  by destruct (String.eqb_spec path "") as [->|_].
Qed.

Lemma sameModel_true (task : Task) (model : string) :
  sameModel task model = true ↔ toLowerCase model = toLowerCase (orEmpty (t_name task)).
Proof. apply String.eqb_eq. Qed.

Lemma matchedTasks_exact (changedModels : list string)
    (modelNameToFileMap : gmap string string) (coalesceTasks : list Task) (task : Task) :
  modelsHaveFiles (changedModels, modelNameToFileMap) →
  task ∈ mt_task <$> matchedTasks changedModels modelNameToFileMap coalesceTasks
  ↔ task ∈ coalesceTasks
    ∧ ∃ model, model ∈ changedModels
               ∧ toLowerCase model = toLowerCase (orEmpty (t_name task)).
Proof.
  intros Hfiles. unfold matchedTasks. split.
  - intros (matched & -> & Hmatched)%list_elem_of_fmap.
    apply list_elem_of_omap in Hmatched as (entry & Hentry & Hkeep).
    apply keepWithFile_task in Hkeep as ->.
    apply list_elem_of_fmap in Hentry as (task & -> & Htask). simpl.
    apply list_elem_of_filter in Htask as [Hsome Htask]. split; [done|].
    apply Is_true_true, existsb_exists in Hsome as (model & Hin & Hsame).
    exists model. split; [by apply list_elem_of_In | by apply sameModel_true].
  - intros (Htask & model & Hmodel & Hsame).
    destruct (List.find (sameModel task) changedModels) as [found|] eqn:Hfind.
    + pose proof (find_some _ _ Hfind) as [Hfound _].
      destruct (Hfiles found) as (filePath & Hfile & Hpath); [by apply list_elem_of_In|].
      simpl in Hfile. apply list_elem_of_fmap.
      exists {| mt_task := task; mt_entity := js_or (t_task_id task) (JStr "");
                mt_filePath := filePath |}.
      split; [done|]. apply list_elem_of_omap.
      exists (withFilePath changedModels modelNameToFileMap task). split.
      * apply list_elem_of_fmap_2, list_elem_of_filter. split; [|done].
        apply Is_true_true, existsb_exists. exists model.
        split; [by apply list_elem_of_In | by apply sameModel_true].
      * unfold withFilePath. rewrite Hfind. simpl. rewrite Hfile.
        by apply keepWithFile_truthy.
    + apply list_elem_of_In in Hmodel. apply sameModel_true in Hsame.
      pose proof (find_none _ _ Hfind model Hmodel) as Hnone. congruence.
Qed.

(** C7. A task of the listing is matched exactly when it is a Coalesce task
    and its lower-cased name is equal to the lower-cased name of a changed
    model; a task named orders is matched for the model Orders, a task
    named orders_staging is not. *)
Theorem matchTasks_exact (modelNameOf : string → option string)
    (changedFiles : list string) (tasks : list Task) (task : Task) :
  task ∈ mt_task <$> matchTasks modelNameOf changedFiles tasks
  ↔ task ∈ tasks ∧ isCoalesceTask task = true
    ∧ ∃ model, model ∈ changedModelsOf modelNameOf changedFiles
               ∧ toLowerCase model = toLowerCase (orEmpty (t_name task)).
Proof.
  unfold matchTasks, changedModelsOf.
  pose proof (collectModels_files modelNameOf
                (filter (λ file, endsWith file ".yml") changedFiles)) as Hfiles.
  destruct (collectModels modelNameOf _) as [changedModels modelNameToFileMap].
  rewrite matchedTasks_exact.
  - rewrite list_elem_of_filter, Is_true_true. tauto.
  - apply Hfiles. apply Forall_forall. intros file [Hyml _]%list_elem_of_filter.
    apply Is_true_true in Hyml. by apply (endsWith_nonempty _ _ Hyml).
Qed.

Example orders_matches_exactly :
  mt_task <$> matchTasks sampleModelName ["README.md"; "models/orders.yml"]
                [coalesceTask "orders_staging"; coalesceTask "orders"; coalesceTask "ORDERS"]
  = [coalesceTask "orders"; coalesceTask "ORDERS"].
Proof. vm_compute. reflexivity. Qed.

(** A node named [__proto__] is a changed model like any other, and a task
    of that name is matched; what the task gets as its file path is the
    prototype object and not the changed file. *)
Example proto_model_matches :
  matchTasks protoModelName ["models/p.yml"; "models/orders.yml"]
    [coalesceTask "__proto__"; coalesceTask "orders"; coalesceTask "p"]
  = [{| mt_task := coalesceTask "__proto__"; mt_entity := JStr "task-11";
        mt_filePath := ObjectPrototype |};
     {| mt_task := coalesceTask "orders"; mt_entity := JStr "task-11";
        mt_filePath := ChangedFile "models/orders.yml" |}].
Proof. vm_compute. reflexivity. Qed.

(** ** Report synthesis *)

Section SynthesizerFacts.
Context `{UrlApi}.

Lemma total_from {V A : Type} (xs : V → list A) (entries : list (string * V)) (n : nat) :
  foldl (λ sum entry, sum + length (xs entry.2)) n entries = n + total xs entries.
Proof.
  unfold total. revert n. induction entries as [|entry entries IH]; intros n; simpl.
  - lia.
  - rewrite IH, (IH (length _)). lia.
Qed.

(** One JSON entry per record of the reconciled lists. *)
Lemma length_entries {V A B : Type} (xs : V → list A) (f : string → V → A → B)
    (entries : list (string * V)) :
  length (entry ← entries; f entry.1 entry.2 <$> xs entry.2) = total xs entries.
Proof.
  induction entries as [|entry entries IH]; [done|].
  rewrite bind_cons, length_app, length_fmap, IH.
  unfold total at 2. simpl. by rewrite total_from.
Qed.

(** With no column key among the options the Markdown has no column
    section, whatever the column impacts are. *)
Lemma columnSection_omitted (inputs : Inputs)
    (columnImpacts : list (string * ColumnImpactSet)) :
  let keys := configurableKeys inputs in
  showDirectColumnCount keys = false → showIndirectColumnCount keys = false →
  showDirectColumnList keys = false → showIndirectColumnList keys = false →
  columnSection inputs columnImpacts = "".
Proof. intros keys H1 H2 H3 H4. unfold columnSection. fold keys. by rewrite H1, H2, H3, H4. Qed.

(** C5. The impact sections of the structured mirror (asset impacts,
    column impacts, YML column changes and the summary totals) do not
    depend on the option keys, and they are fully populated from the
    reconciled data: for any option-key string, each of the four impact
    lists holds one entry for every reconciled record of every file, in
    the order of the files and of their records, with the file path, the
    task name, the fields of the record and its link; the two YML lists
    hold the names of all added and removed columns; the totals count every
    reconciled record.  Hence the sections are the same for any two
    option-key strings applied to the same reconciled data. *)
Theorem json_independent_of_options (inputs : Inputs) (keys1 keys2 : string)
    (context : RunContext) (fileImpacts : list (string * FileImpactSet))
    (columnImpacts : list (string * ColumnImpactSet)) (changedFiles : list string)
    (ymlAdded ymlRemoved : list Column) :
  let json keys :=
    generateComprehensiveJSON (withKeys inputs keys) context fileImpacts columnImpacts
      changedFiles ymlAdded ymlRemoved in
  let asset (filePath : string) (impacts : FileImpactSet) (model : ImpactRecord) :=
    {| aj_file_path := filePath;
       aj_model_name := ir_name model;
       aj_task_name := fi_taskName impacts;
       aj_redirect_url := constructItemUrl model (dqlabs_createlink_url inputs) |} in
  let column (filePath : string) (impacts : ColumnImpactSet)
      (column : ColumnImpactRecord) :=
    {| cj_file_path := filePath;
       cj_table_name := ci_table_name column;
       cj_column_name := ci_column_name column;
       cj_data_type := ci_data_type column;
       cj_task_name := cs_taskName impacts;
       cj_redirect_url := constructColumnUrl column (dqlabs_createlink_url inputs) |} in
  impactSections (json keys1) = impactSections (json keys2)
  ∧ jd_summary (json keys1)
    = {| total_direct_assets := total fi_direct fileImpacts;
         total_indirect_assets := total fi_indirect fileImpacts;
         total_direct_columns := total cs_direct columnImpacts;
         total_indirect_columns := total cs_indirect columnImpacts;
         total_yml_added := length ymlAdded;
         total_yml_removed := length ymlRemoved;
         total_changed_files := length changedFiles |}
  ∧ yml_column_changes_added (json keys1) = col_name <$> ymlAdded
  ∧ yml_column_changes_removed (json keys1) = col_name <$> ymlRemoved
  ∧ asset_impacts_direct (json keys1)
    = (entry ← fileImpacts; asset entry.1 entry.2 <$> fi_direct entry.2)
  ∧ asset_impacts_indirect (json keys1)
    = (entry ← fileImpacts; asset entry.1 entry.2 <$> fi_indirect entry.2)
  ∧ column_impacts_direct (json keys1)
    = (entry ← columnImpacts; column entry.1 entry.2 <$> cs_direct entry.2)
  ∧ column_impacts_indirect (json keys1)
    = (entry ← columnImpacts; column entry.1 entry.2 <$> cs_indirect entry.2).
Proof.
  intros json asset column.
  split; [done|]. split; [|by repeat split].
  unfold json, generateComprehensiveJSON. simpl.
  rewrite (length_entries fi_direct (assetJson (withKeys inputs keys1))).
  rewrite (length_entries fi_indirect (assetJson (withKeys inputs keys1))).
  rewrite (length_entries cs_direct (columnJson (withKeys inputs keys1))).
  by rewrite (length_entries cs_indirect (columnJson (withKeys inputs keys1))).
Qed.
End SynthesizerFacts.

(** The scenario of the specification: with the two direct asset keys the
    Markdown shows the direct asset count and list and nothing of the
    indirect assets or of the columns, and the structured mirror still
    holds all four lists. *)
Example direct_asset_keys_scenario :
  let inputs := sampleInputs "direct_asset_count,direct_asset_list" in
  let json :=
    generateComprehensiveJSON inputs sampleContext sampleFileImpacts sampleColumnImpacts
      ["models/orders.yml"] [column "tax"] [] in
  summaryMarkdown inputs sampleFileImpacts sampleColumnImpacts ["models/orders.yml"]
    [column "tax"] []
  = line "## Impact Analysis Report" +:+ nl
      +:+ line "### Changed Files" +:+ line "- models/orders.yml" +:+ nl
      +:+ line "### Asset level Impacts"
      +:+ line "- **Total Directly Impacted:** 1" +:+ nl
      +:+ line "<details>"
      +:+ line "<summary><b>Directly Impacted Assets (1)</b></summary>" +:+ nl
      +:+ line ("- [orders_rollup]"
                +:+ "(https://app.example.com/observe/pipeline/transformation/a1b2/run)")
      +:+ line "</details>" +:+ nl
  ∧ aj_model_name <$> asset_impacts_indirect json = [JStr "sales-eu"]
  ∧ cj_column_name <$> column_impacts_direct json = [JStr "total"]
  ∧ cj_column_name <$> column_impacts_indirect json = [JStr "tax"]
  ∧ jd_summary json
    = {| total_direct_assets := 1; total_indirect_assets := 1;
         total_direct_columns := 1; total_indirect_columns := 1;
         total_yml_added := 1; total_yml_removed := 0; total_changed_files := 1 |}.
Proof. vm_compute. repeat split; reflexivity. Qed.


(** * Further properties of the script *)

(** ** Deduplication keeps first occurrences; the reconciliation is stable *)

Section ByKeyMore.
Context {A : Type} (key : A → string).
Implicit Types (seen : gset string) (arr : list A).

Lemma dedupFrom_sublist seen arr : sublist (dedupFrom key seen arr) arr.
Proof.
revert seen. induction arr as [|item rest IH]; intros seen; simpl; [done|].
destruct (decide (key item ∈ seen)); [by apply sublist_cons | by apply sublist_skip].
Qed.

Lemma dedupFrom_with_key seen arr k :
  filter (λ x, key x = k) (dedupFrom key seen arr)
  = if decide (k ∈ seen) then [] else take 1 (filter (λ x, key x = k) arr).
Proof.
revert seen. induction arr as [|item rest IH]; intros seen; simpl.
- by destruct (decide (k ∈ seen)).
- destruct (decide (key item ∈ seen)) as [Hseen|Hnew].
  + rewrite IH. destruct (decide (k ∈ seen)) as [|Hk]; [done|].
    rewrite filter_cons_False; [done|]. by intros <-.
  + destruct (decide (key item = k)) as [Heq|Hne].
    * rewrite !filter_cons_True by done. simpl. rewrite take_0.
      rewrite decide_False by (by rewrite <- Heq).
      rewrite IH, decide_True by (rewrite Heq; set_solver). done.
    * rewrite !filter_cons_False by done. rewrite IH.
      destruct (decide (k ∈ seen)) as [Hk|Hk].
      -- rewrite decide_True by set_solver. done.
      -- rewrite decide_False by set_solver. done.
Qed.

(** X1. Deduplication returns a sublist of its input (order kept), and for
    every key the records it keeps with that key are exactly the first
    record of the input with that key. *)
Theorem dedupBy_keeps_first arr :
  sublist (dedupBy key arr) arr
  ∧ ∀ k, filter (λ x, key x = k) (dedupBy key arr) = take 1 (filter (λ x, key x = k) arr).
Proof.
split; [apply dedupFrom_sublist|].
intros k. unfold dedupBy. rewrite dedupFrom_with_key.
by rewrite decide_False by apply not_elem_of_empty.
Qed.

(** A list that shares no key with the direct list passes the precedence
    filter unchanged. *)
Lemma withoutDirect_fixed direct indirect :
  (key <$> direct) ## (key <$> indirect) → withoutDirect key direct indirect = indirect.
Proof.
intros Hdisjoint. unfold withoutDirect.
induction indirect as [|item rest IH]; [done|].
rewrite filter_cons_True.
- f_equal. apply IH. intros k Hd Hr. apply (Hdisjoint k Hd). rewrite fmap_cons. by right.
- rewrite elem_of_list_to_set. intros Hd. apply (Hdisjoint (key item) Hd).
  rewrite fmap_cons. by left.
Qed.

Lemma dedupBy_fixed arr : NoDup (key <$> arr) → dedupBy key arr = arr.
Proof.
intros Hnd. apply dedupFrom_fixed; [done|]. intros x _. apply not_elem_of_empty.
Qed.

Lemma reconcile_lists_fixed direct indirect :
  Reconciled key direct indirect →
  dedupBy key direct = direct
  ∧ dedupBy key (withoutDirect key direct indirect) = indirect.
Proof.
intros (Hdisjoint & Hdirect & Hindirect).
rewrite withoutDirect_fixed by done. by rewrite !dedupBy_fixed.
Qed.
End ByKeyMore.

Lemma reconcileFile_reconciled (impacts : FileImpactSet) :
  Reconciled uniqueKey (fi_direct impacts) (fi_indirect impacts) →
  reconcileFile impacts = impacts.
Proof.
intros [Hd Hi]%reconcile_lists_fixed. destruct impacts as [direct indirect taskName].
unfold reconcileFile, fileDedup, fileRemoveDirect, dedup. simpl in *. by rewrite Hd, Hi.
Qed.

Lemma reconcileColumns_reconciled (impacts : ColumnImpactSet) :
  Reconciled columnUniqueKey (cs_direct impacts) (cs_indirect impacts) →
  reconcileColumns impacts = impacts.
Proof.
intros [Hd Hi]%reconcile_lists_fixed.
destruct impacts as [direct indirect taskName changed].
unfold reconcileColumns, columnSetDedup, columnRemoveDirect, columnDedup. simpl in *.
by rewrite Hd, Hi.
Qed.

Lemma reconcileFile_fixed (impacts : FileImpactSet) :
  reconcileFile (reconcileFile impacts) = reconcileFile impacts.
Proof.
apply reconcileFile_reconciled.
exact (reconcile_lists uniqueKey (fi_direct impacts) (fi_indirect impacts)).
Qed.

Lemma reconcileColumns_fixed (impacts : ColumnImpactSet) :
  reconcileColumns (reconcileColumns impacts) = reconcileColumns impacts.
Proof.
apply reconcileColumns_reconciled.
exact (reconcile_lists columnUniqueKey (cs_direct impacts) (cs_indirect impacts)).
Qed.

Lemma onEntries_compose {V : Type} (f g : V → V) (entries : list (string * V)) :
  onEntries f (onEntries g entries) = onEntries (f ∘ g) entries.
Proof. unfold onEntries. rewrite <- list_fmap_compose. by apply list_fmap_ext. Qed.

(** X2. Reconciling reconciled impacts changes nothing: the three loops are
    idempotent on the asset impacts and on the column impacts of all
    files. *)
Theorem reconciliation_idempotent (fileImpacts : list (string * FileImpactSet))
    (columnImpacts : list (string * ColumnImpactSet)) :
  reconcileFileImpacts (reconcileFileImpacts fileImpacts) = reconcileFileImpacts fileImpacts
  ∧ reconcileColumnImpacts (reconcileColumnImpacts columnImpacts)
    = reconcileColumnImpacts columnImpacts.
Proof.
unfold reconcileFileImpacts, reconcileColumnImpacts.
rewrite !onEntries_compose. unfold onEntries.
split; apply list_fmap_ext; intros i [filePath impacts] _; simpl; f_equal.
- apply reconcileFile_fixed.
- apply reconcileColumns_fixed.
Qed.

(** X3. The reconciliation loses no identity key and invents none: the
    direct list keeps exactly its keys, and the indirect list keeps exactly
    those of its keys that the direct list does not have. *)
Theorem reconciliation_keeps_keys (impacts : FileImpactSet) (columns : ColumnImpactSet)
    (k : string) :
  (k ∈ uniqueKey <$> fi_direct (reconcileFile impacts)
   ↔ k ∈ uniqueKey <$> fi_direct impacts)
  ∧ (k ∈ uniqueKey <$> fi_indirect (reconcileFile impacts)
     ↔ k ∈ uniqueKey <$> fi_indirect impacts ∧ k ∉ uniqueKey <$> fi_direct impacts)
  ∧ (k ∈ columnUniqueKey <$> cs_direct (reconcileColumns columns)
     ↔ k ∈ columnUniqueKey <$> cs_direct columns)
  ∧ (k ∈ columnUniqueKey <$> cs_indirect (reconcileColumns columns)
     ↔ k ∈ columnUniqueKey <$> cs_indirect columns
       ∧ k ∉ columnUniqueKey <$> cs_direct columns).
Proof.
unfold reconcileFile, reconcileColumns, dedup, columnDedup. simpl.
unfold dedup, columnDedup.
rewrite !dedupBy_keys, !withoutDirect_keys. done.
Qed.

(** ** Classification of a task's response *)

Lemma isString_true (v : JsVal) (s : string) : isString v s = true ↔ v = JStr s.
Proof.
destruct v as [| | | |t| |]; simpl; try (split; [done | by intros [=]]).
rewrite String.eqb_eq. split; [by intros -> | by intros [= ->]].
Qed.

Lemma nameSetHas_true (names : list JsVal) (name : JsVal) :
  nameSetHas names name = true ↔ primitive name ∧ name ∈ names.
Proof. apply namesInclude_true. Qed.

Lemma elem_of_nonNull {A : Type} (entries : list (option A)) (x : A) :
  x ∈ nonNull entries ↔ Some x ∈ entries.
Proof.
unfold nonNull. rewrite list_elem_of_omap. split.
- by intros ([y|] & Hin & [= ->]).
- intros Hin. by exists (Some x).
Qed.

Lemma elem_of_filteredDirectImpact (taskName : option string)
    (impactTables indirectImpact : list (option ImpactRecord)) (item : ImpactRecord) :
  item ∈ filteredDirectImpact taskName impactTables indirectImpact
  ↔ Some item ∈ impactTables
    ∧ isTaskName (ir_name item) taskName = false
    ∧ nameSetHas (recordName <$> indirectImpact) (ir_name item) = false.
Proof.
unfold filteredDirectImpact.
rewrite elem_of_nonNull, !list_elem_of_filter, !Is_true_false. simpl. tauto.
Qed.

Lemma elem_of_filteredInDirectImpact (taskName : option string)
    (indirectImpact : list (option ImpactRecord)) (item : ImpactRecord) :
  item ∈ filteredInDirectImpact taskName indirectImpact
  ↔ Some item ∈ indirectImpact ∧ isTaskName (ir_name item) taskName = false.
Proof.
unfold filteredInDirectImpact.
rewrite elem_of_nonNull, list_elem_of_filter, Is_true_false. simpl. tauto.
Qed.

(** X4. After the filters of one task, no kept record carries the task's
    own name, and no kept direct record has a primitive name that occurs in
    the indirect list of the response.  A record the service returns in
    both lists is therefore dropped from the direct batch, and it stays in
    the indirect batch unless it is the task itself. *)
Theorem classification_by_name (taskName : string)
    (impactTables indirectImpact : list (option ImpactRecord)) :
  let direct := filteredDirectImpact (Some taskName) impactTables indirectImpact in
  let indirect := filteredInDirectImpact (Some taskName) indirectImpact in
  Forall (λ item, ir_name item ≠ JStr taskName) (direct ++ indirect)
  ∧ Forall (λ item, primitive (ir_name item) →
                    ir_name item ∉ (ir_name <$> indirect)) direct
  ∧ (∀ record, Some record ∈ impactTables → Some record ∈ indirectImpact →
               primitive (ir_name record) →
               (record ∉ direct)
               ∧ (ir_name record ≠ JStr taskName → record ∈ indirect)).
Proof.
intros direct indirect. split; [|split].
- apply Forall_app. split; apply Forall_forall; intros item.
  + intros (_ & Hself & _)%elem_of_filteredDirectImpact Hname.
    apply isString_true in Hname. simpl in Hself. congruence.
  + intros [_ Hself]%elem_of_filteredInDirectImpact Hname.
    apply isString_true in Hname. simpl in Hself. congruence.
- apply Forall_forall. intros item (_ & _ & Hset)%elem_of_filteredDirectImpact Hprim.
  intros (other & Hname & Hother)%list_elem_of_fmap.
  apply elem_of_filteredInDirectImpact in Hother as [Hother _].
  assert (nameSetHas (recordName <$> indirectImpact) (ir_name item) = true) as Hhas.
  { apply nameSetHas_true. split; [done|]. rewrite Hname.
    by apply (list_elem_of_fmap_2 recordName _ (Some other)). }
  congruence.
- intros record Hdirect Hindirect Hprim. split.
  + intros (_ & _ & Hset)%elem_of_filteredDirectImpact.
    assert (nameSetHas (recordName <$> indirectImpact) (ir_name record) = true) as Hhas.
    { apply nameSetHas_true. split; [done|].
      by apply (list_elem_of_fmap_2 recordName _ (Some record)). }
    congruence.
  + intros Hname. apply elem_of_filteredInDirectImpact. split; [done|]. simpl.
    destruct (isString (ir_name record) taskName) eqn:Hself; [|done].
    by apply isString_true in Hself.
Qed.

(** The scenario of a record in both lists, through the reconciliation of
    its file: it ends up among the indirect impacts only. *)
Example both_buckets_end_indirect :
  reconcileFile
    (pushImpacts (Some "orders") [Some salesEuWest; Some transformAsset] [Some salesEuWest]
       {| fi_direct := []; fi_indirect := []; fi_taskName := Some "orders" |})
  = {| fi_direct := [transformAsset]; fi_indirect := [salesEuWest];
       fi_taskName := Some "orders" |}.
Proof. vm_compute. reflexivity. Qed.

(** ** URL resolver for columns, and the list entries *)

Section ResolverMore.
Context `{UrlApi}.

(** X5. The column-level resolver returns the placeholder when the base
    address is absent or cannot be parsed.  Otherwise a pipeline column
    always gets the task page (never the transformation page) and a data
    column the measures page, both whether or not the record has a
    connection id or a redirect id; a column of any other group gets the
    placeholder when one of the two ids is missing and the task page when
    both are there. *)
Theorem constructColumnUrl_routes (columnItem : ColumnImpactRecord) (baseUrl : string) :
  (baseUrl = "" → constructColumnUrl columnItem baseUrl = "#")
  ∧ (URL_new baseUrl = None → constructColumnUrl columnItem baseUrl = "#")
  ∧ (∀ url,
       baseUrl ≠ "" → URL_new baseUrl = Some url →
       let page path := URL_toString (URL_setPathname url path) in
       let id := js_toString (ci_redirect_id columnItem) in
       let taskPage := page ("/observe/pipeline/task/" +:+ id +:+ "/run") in
       (ci_asset_group columnItem = JStr "pipeline" →
        constructColumnUrl columnItem baseUrl = taskPage)
       ∧ (ci_asset_group columnItem = JStr "data" →
          constructColumnUrl columnItem baseUrl
          = page ("/observe/data/" +:+ id +:+ "/measures"))
       ∧ (ci_asset_group columnItem ≠ JStr "pipeline" →
          ci_asset_group columnItem ≠ JStr "data" →
          (truthy (ci_connection_id columnItem) = false
           ∨ truthy (ci_redirect_id columnItem) = false →
           constructColumnUrl columnItem baseUrl = "#")
          ∧ (truthy (ci_connection_id columnItem) = true →
             truthy (ci_redirect_id columnItem) = true →
             constructColumnUrl columnItem baseUrl = taskPage))).
Proof.
unfold constructColumnUrl. split; [by intros ->|].
split; [intros ->; by destruct (String.eqb baseUrl "")|].
intros url Hbase ->. simpl.
destruct (String.eqb_spec baseUrl "") as [|_]; [done|].
unfold withPath, taskPath, measuresPath.
split; [by intros ->|]. split; [by intros ->|].
intros Hp Hd.
assert (isString (ci_asset_group columnItem) "pipeline" = false) as ->.
{ destruct (isString _ "pipeline") eqn:Heq; [|done]. by apply isString_true in Heq. }
assert (isString (ci_asset_group columnItem) "data" = false) as ->.
{ destruct (isString _ "data") eqn:Heq; [|done]. by apply isString_true in Heq. }
split.
- by intros [-> | ->]; rewrite ?orb_true_r.
- by intros -> ->.
Qed.

Lemma constructItemUrl_unconnected (item : ImpactRecord) (baseUrl : string) :
  truthy (ir_connection_id item) = false → constructItemUrl item baseUrl = "#".
Proof.
intros Hconn. unfold constructItemUrl. rewrite Hconn.
destruct (String.eqb baseUrl ""); [done|]. by destruct (URL_new baseUrl).
Qed.

(** X6. An asset entry of the Markdown lists is a hyperlink exactly when
    the resolver returns something else than the placeholder: the test on
    the connection id in the list code never decides, because the resolver
    already returns the placeholder without a connection id. *)
Theorem assetLine_link (inputs : Inputs) (model : ImpactRecord) :
  let url := constructItemUrl model (dqlabs_createlink_url inputs) in
  let modelName := js_toString (js_or (ir_name model) (JStr "Unknown")) in
  assetLine inputs model
  = if String.eqb url "#" then "- " +:+ modelName
    else "- [" +:+ modelName +:+ "](" +:+ url +:+ ")".
Proof.
intros url modelName. unfold assetLine. fold url modelName.
destruct (truthy (ir_connection_id model)) eqn:Hconn; simpl.
- by destruct (String.eqb url "#").
- unfold url. by rewrite constructItemUrl_unconnected.
Qed.

(** X7. The two resolvers agree on a record of the pipeline group that is
    no transformation and on a record of the data group, when both ids are
    present. *)
Theorem resolvers_agree (item : ImpactRecord) (columnItem : ColumnImpactRecord)
    (baseUrl : string) :
  ir_asset_group item = ci_asset_group columnItem →
  ir_redirect_id item = ci_redirect_id columnItem →
  truthy (ir_connection_id item) = true →
  truthy (ir_redirect_id item) = true →
  (ir_asset_group item = JStr "pipeline" ∧ truthy (ir_is_transform item) = false)
  ∨ ir_asset_group item = JStr "data" →
  constructItemUrl item baseUrl = constructColumnUrl columnItem baseUrl.
Proof.
intros Hgroup Hid Hconn Hredirect Hcase.
unfold constructItemUrl, constructColumnUrl, routeItem.
rewrite <- Hgroup, <- Hid, Hconn, Hredirect.
destruct (String.eqb baseUrl ""); [done|].
destruct (URL_new baseUrl) as [url|]; [|done]. simpl.
by destruct Hcase as [[-> ->] | ->].
Qed.
End ResolverMore.

Lemma constructColumnUrl_routes_witness :
  constructColumnUrl (columnRecord (JStr "orders") (JStr "tax") noValue) exampleBase
  = "https://app.example.com/observe/data/3/measures".
Proof.
destruct (constructColumnUrl_routes (columnRecord (JStr "orders") (JStr "tax") noValue)
            exampleBase) as (_ & _ & Hroute).
destruct (Hroute {| su_origin := exampleBase; su_pathname := "/" |}) as (_ & Hdata & _);
  [done..|].
by apply Hdata.
Defined.

Lemma resolvers_agree_witness :
  constructItemUrl salesEuWest exampleBase
  = constructColumnUrl
      {| ci_table_name := JStr "orders"; ci_column_name := JStr "tax";
         ci_column_id := noValue; ci_data_type := noValue; ci_table_id := noValue;
         ci_redirect_id := JNum 7; ci_entity := noValue; ci_connection_id := noValue;
         ci_asset_name := noValue; ci_flow := noValue; ci_depth := noValue;
         ci_impact_type := noValue; ci_asset_group := JStr "data" |}
      exampleBase.
Proof. apply resolvers_agree; [done..|]. by right. Defined.

(** ** The report and its comment *)

Lemma app_nonempty (s t : string) : s ≠ "" → s +:+ t ≠ "".
Proof. by destruct s. Qed.

Lemma when_empty (flag : bool) (text : string) :
  text ≠ "" → (when flag text = "" ↔ flag = false).
Proof. intros Htext. destruct flag; simpl; split; done. Qed.

Lemma substring_prefix (t rest : string) : Substring t (t +:+ rest).
Proof. by exists "", rest. Qed.

Lemma app_assoc_string (a b c : string) : (a +:+ b) +:+ c = a +:+ (b +:+ c).
Proof. induction a as [|x a IH]; [done|]. by rewrite !app_cons, IH. Qed.

Section ReportFacts.
Context `{UrlApi}.

(** X8. Each of the three optional sections of the Markdown is omitted
    exactly when none of its option flags is set: the asset section and the
    column section by their four flags, the YML section by its one. *)
Theorem sections_follow_flags (inputs : Inputs)
    (fileImpacts : list (string * FileImpactSet))
    (columnImpacts : list (string * ColumnImpactSet)) (ymlAdded ymlRemoved : list Column) :
  let keys := configurableKeys inputs in
  (assetSection inputs fileImpacts = ""
   ↔ showDirectAssetCount keys = false ∧ showIndirectAssetCount keys = false
     ∧ showDirectAssetList keys = false ∧ showIndirectAssetList keys = false)
  ∧ (columnSection inputs columnImpacts = ""
     ↔ showDirectColumnCount keys = false ∧ showIndirectColumnCount keys = false
       ∧ showDirectColumnList keys = false ∧ showIndirectColumnList keys = false)
  ∧ (ymlSection inputs ymlAdded ymlRemoved = "" ↔ showYmlColumnChanges keys = false).
Proof.
intros keys. unfold assetSection, columnSection, ymlSection. fold keys.
rewrite !when_empty by (by apply app_nonempty).
rewrite !orb_false_iff. tauto.
Qed.

(** X9. Every summary starts with the marker heading, so a comment of the
    bot whose body was built from a summary is recognized as the existing
    report comment, and a run that finds such a comment updates a comment
    and creates none. *)
Theorem report_comment_is_found (inputs : Inputs)
    (fileImpacts : list (string * FileImpactSet))
    (columnImpacts : list (string * ColumnImpactSet)) (changedFiles : list string)
    (ymlAdded ymlRemoved : list Column) (json : string) (id : JsVal)
    (before after : list Comment) (summary' json' : string) :
  let summary :=
    summaryMarkdown inputs fileImpacts columnImpacts changedFiles ymlAdded ymlRemoved in
  let posted :=
    {| c_id := id; c_user_type := "Bot"; c_user_login := "github-actions[bot]";
       c_body := finalSummary summary json |} in
  isReportComment posted = true
  ∧ ∃ comment_id, postComment (before ++ posted :: after) summary' json'
                  = UpdateComment comment_id (finalSummary summary' json').
Proof.
intros summary posted.
assert (isReportComment posted = true) as Hposted.
{ assert (includes (finalSummary summary json) reportMarker = true) as Hmarker.
  { apply includes_spec.
    unfold finalSummary, summary, summaryMarkdown, buildNewAnalysisReport, reportMarker.
    rewrite !app_assoc_string. apply substring_prefix. }
  unfold isReportComment, posted. cbn [c_user_type c_user_login c_body].
  by rewrite Hmarker. }
split; [done|]. unfold postComment, existingComment.
destruct (List.find isReportComment (before ++ posted :: after)) as [found|] eqn:Hfind.
- by exists (c_id found).
- pose proof (find_none _ _ Hfind posted) as Hnone.
  rewrite Hnone in Hposted; [done|]. apply in_or_app. right. by left.
Qed.
End ReportFacts.

(** ** Column delta: what is recorded, and for which files *)

Lemma foldl_invariant {B X : Type} (P : B → Prop) (f : B → X → B) (l : list X) (init : B) :
  P init → (∀ acc x, x ∈ l → P acc → P (f acc x)) → P (foldl f init l).
Proof.
revert init. induction l as [|x l IH]; intros init Hinit Hstep; [done|]. simpl.
apply IH.
- apply Hstep; [by left | done].
- intros acc y Hy. apply Hstep. by right.
Qed.

Lemma foldl_related {B C X : Type} (R : B → C → Prop) (f : B → X → B) (g : C → X → C)
    (l : list X) (b : B) (c : C) :
  R b c → (∀ b' c' x, x ∈ l → R b' c' → R (f b' x) (g c' x)) →
  R (foldl f b l) (foldl g c l).
Proof.
revert b c. induction l as [|x l IH]; intros b c Hinit Hstep; [done|]. simpl.
apply IH.
- apply Hstep; [by left | done].
- intros b' c' y Hy. apply Hstep. by right.
Qed.

Section DeltaMore.
Context `{YamlApi} `{GitApi}.

(** An iteration either leaves the accumulator or appends the delta of the
    file. *)
Lemma processFile_cases (baseSha headSha : JsVal) (changedColumns : ChangedColumns)
    (file : string) :
  processFile baseSha headSha changedColumns file = changedColumns
  ∨ ∃ content,
      getFileContent headSha file = Some content ∧ content ≠ ""
      ∧ let delta :=
          columnDelta
            (baseColumns (if truthy baseSha then getFileContent baseSha file else None))
            (extractColumnsFromYML content) in
        processFile baseSha headSha changedColumns file
        = {| added := added changedColumns ++ changesOf file delta.1;
             removed := removed changedColumns ++ changesOf file delta.2;
             modified := modified changedColumns |}.
Proof.
unfold processFile.
destruct (getFileContent headSha file) as [content|]; [|by left].
destruct (String.eqb_spec content "") as [|Hcontent]; [by left|].
right. exists content. split; [done|]. split; [done|]. by unfold columnDelta.
Qed.

Lemma elem_of_changesOf (file : string) (cols : list Column) (change : ColumnChange) :
  change ∈ changesOf file cols
  ↔ ∃ col, col ∈ cols ∧ change = {| cc_column := col_name col; cc_file := file |}.
Proof.
unfold changesOf. rewrite list_elem_of_fmap. split; intros (col & ? & ?); by exists col.
Qed.

(** X10. Every change that [extractChangedColumns] records belongs to one
    of the changed files whose name ends in [.yml], and the [modified]
    list stays empty. *)
Theorem extractChangedColumns_files (baseSha headSha : JsVal) (changedFiles : list string) :
  let changes := extractChangedColumns baseSha headSha changedFiles in
  Forall (λ change, cc_file change ∈ changedFiles ∧ endsWith (cc_file change) ".yml" = true)
         (added changes ++ removed changes)
  ∧ modified changes = [].
Proof.
unfold extractChangedColumns, ymlFiles.
apply (foldl_invariant
         (λ acc, Forall (λ change, cc_file change ∈ changedFiles
                                   ∧ endsWith (cc_file change) ".yml" = true)
                        (added acc ++ removed acc)
                 ∧ modified acc = [])).
- by split; [constructor|].
- intros acc file [Hyml Hfile]%list_elem_of_filter [Hacc Hmod].
  apply Is_true_true in Hyml.
  destruct (processFile_cases baseSha headSha acc file) as [->|(content & _ & _ & ->)];
    [done|]. simpl. split; [|done].
  apply Forall_app in Hacc as [Hadded Hremoved].
  rewrite !Forall_app. repeat split; try done.
  all: apply Forall_forall; intros change (col & _ & ->)%elem_of_changesOf; done.
Qed.

(** X11. No column of a file is recorded both as added and as removed: a
    recorded added name that is a primitive value differs from every
    recorded removed name of the same file. *)
Theorem added_and_removed_apart (baseSha headSha : JsVal) (changedFiles : list string) :
  let changes := extractChangedColumns baseSha headSha changedFiles in
  Forall (λ a,
            Forall (λ r, cc_file a = cc_file r → primitive (cc_column a) →
                         cc_column a ≠ cc_column r)
                   (removed changes))
         (added changes).
Proof.
unfold extractChangedColumns.
assert (Forall (λ a, namesInclude (baseNamesOf baseSha (cc_file a)) (cc_column a) = false)
               (added (foldl (processFile baseSha headSha) noChanges (ymlFiles changedFiles)))
        ∧ Forall (λ r, cc_column r ∈ baseNamesOf baseSha (cc_file r))
                 (removed (foldl (processFile baseSha headSha) noChanges
                                 (ymlFiles changedFiles)))) as [Hadded Hremoved].
{ apply (foldl_invariant
           (λ acc, Forall (λ a, namesInclude (baseNamesOf baseSha (cc_file a)) (cc_column a)
                                = false) (added acc)
                   ∧ Forall (λ r, cc_column r ∈ baseNamesOf baseSha (cc_file r))
                            (removed acc))).
  - by split; constructor.
  - intros acc file _ [Ha Hr].
    destruct (processFile_cases baseSha headSha acc file) as [->|(content & _ & _ & ->)];
      [done|]. simpl. rewrite !Forall_app. repeat split; try done.
    + apply Forall_forall. intros change (col & Hcol & ->)%elem_of_changesOf. simpl.
      apply list_elem_of_filter in Hcol as [Hnot _]. by apply Is_true_false.
    + apply Forall_forall. intros change (col & Hcol & ->)%elem_of_changesOf. simpl.
      apply list_elem_of_filter in Hcol as [_ Hcol]. by apply list_elem_of_fmap_2. }
apply Forall_forall. intros a Ha. apply Forall_forall. intros r Hr Hfile Hprim Heq.
rewrite Forall_forall in Hadded, Hremoved.
specialize (Hadded a Ha). specialize (Hremoved r Hr).
rewrite <- Hfile, <- Heq in Hremoved.
assert (namesInclude (baseNamesOf baseSha (cc_file a)) (cc_column a) = true) as Hin
  by (by apply namesInclude_true).
congruence.
Qed.

Lemma filter_none {X : Type} (P : X → Prop) `{∀ x, Decision (P x)} (l : list X) :
  Forall (λ x, ¬ P x) l → filter P l = [].
Proof.
induction 1 as [|x l Hx _ IH]; [done|]. by rewrite filter_cons_False.
Qed.

Lemma all_names_included (cols : list Column) :
  Forall (λ col, primitive (col_name col)) cols →
  filter (λ col, ¬ namesInclude (col_name <$> cols) (col_name col)) cols = [].
Proof.
intros Hprim. apply filter_none. apply Forall_forall. intros col Hcol Hnot.
apply Hnot, Is_true_true, namesInclude_true. rewrite Forall_forall in Hprim.
split; [by apply Hprim | by apply list_elem_of_fmap_2].
Qed.

(** X12. A file whose content is the same at both revisions records
    nothing, provided the names of its columns are primitive values (an
    entry that stands for its own name is an object, and is found in no
    name list). *)
Theorem unchanged_file_records_nothing (baseSha headSha : JsVal)
    (changedColumns : ChangedColumns) (file : string) :
  truthy baseSha = true →
  getFileContent baseSha file = getFileContent headSha file →
  (∀ content, getFileContent headSha file = Some content →
              Forall (λ col, primitive (col_name col)) (extractColumnsFromYML content)) →
  processFile baseSha headSha changedColumns file = changedColumns.
Proof.
intros Hbase Hsame Hprim.
destruct (processFile_cases baseSha headSha changedColumns file)
  as [|(content & Hcontent & Hne & ->)]; [done|].
rewrite Hbase, Hsame, Hcontent. simpl.
destruct (String.eqb_spec content "") as [|_]; [done|].
rewrite all_names_included by by apply Hprim.
unfold changesOf. simpl. rewrite !app_nil_r. by destruct changedColumns.
Qed.
End DeltaMore.

Lemma unchanged_file_records_nothing_witness :
  @processFile sampleYaml stableGit (JStr "base") (JStr "head") noChanges
    "models/orders.yml" = noChanges.
Proof.
apply (@unchanged_file_records_nothing sampleYaml stableGit); [done..|].
intros content [= <-]. vm_compute. repeat constructor.
Defined.

Section ReportDeltaFacts.
Context `{YamlApi} `{GitApi}.

(** X13. The column changes of the report and the changed columns of the
    column-level analysis are the same delta: the added names of the one
    are the added names of the other, in the same order, and so are the
    removed names. *)
Theorem report_delta_agrees (baseSha headSha : JsVal) (changedFiles : list string) :
  let changes := extractChangedColumns baseSha headSha changedFiles in
  let report := ymlColumnChanges baseSha headSha changedFiles in
  cc_column <$> added changes = col_name <$> pc_added report
  ∧ cc_column <$> removed changes = col_name <$> pc_removed report.
Proof.
unfold extractChangedColumns, ymlColumnChanges, processColumnChanges, ymlFiles.
apply (foldl_related
         (λ acc report, cc_column <$> added acc = col_name <$> pc_added report
                        ∧ cc_column <$> removed acc = col_name <$> pc_removed report)).
- done.
- intros acc report file _ [Hadded Hremoved]. unfold processFile, processChange.
  destruct (getFileContent headSha file) as [content|]; [|done].
  destruct (String.eqb content ""); [done|].
  unfold baseColumns.
  destruct (columnDelta _ _) as [addedCols removedCols]. simpl.
  unfold changesOf. rewrite !fmap_app, <- !list_fmap_compose, Hadded, Hremoved.
  done.
Qed.
End ReportDeltaFacts.

(** ** Changed files *)

Lemma app_empty_r (s : string) : s +:+ "" = s.
Proof. induction s as [|a s IH]; [done|]. by rewrite app_cons, IH. Qed.

Lemma rev_app_acc (s acc : string) : String.rev_app s acc = String.rev s +:+ acc.
Proof.
unfold String.rev. revert acc. induction s as [|a s IH]; intros acc; simpl; [done|].
rewrite IH, (IH (String a "")), app_assoc_string. done.
Qed.

Lemma rev_cons (a : ascii) (s : string) : String.rev (String a s) = String.rev s +:+ String a "".
Proof. unfold String.rev at 1. simpl. apply rev_app_acc. Qed.

Lemma rev_append (s t : string) : String.rev (s +:+ t) = String.rev t +:+ String.rev s.
Proof.
induction s as [|a s IH]; [by rewrite app_empty_l, app_empty_r|].
by rewrite app_cons, !rev_cons, IH, app_assoc_string.
Qed.

Lemma rev_involutive (s : string) : String.rev (String.rev s) = s.
Proof.
induction s as [|a s IH]; [done|]. by rewrite rev_cons, rev_append, IH.
Qed.

Lemma trimStart_noLeadingSpace (s : string) : noLeadingSpace (trimStart s).
Proof.
induction s as [|c s IH]; [done|]. simpl.
by destruct (Ascii.is_space c) eqn:Hc.
Qed.

Lemma trimStart_fixed (s : string) : noLeadingSpace s → trimStart s = s.
Proof. destruct s as [|c s]; [done|]. simpl. by intros ->. Qed.

Lemma trimStart_suffix (s : string) : ∃ spaces, s = spaces +:+ trimStart s.
Proof.
induction s as [|c s [spaces IH]]; [by exists ""|]. simpl.
destruct (Ascii.is_space c).
- exists (String c spaces). by rewrite app_cons, <- IH.
- by exists "".
Qed.

Lemma trim_noLeadingSpace (s : string) : noLeadingSpace (trim s).
Proof.
unfold trim.
pose proof (trimStart_noLeadingSpace s) as Hstart.
destruct (trimStart_suffix (String.rev (trimStart s))) as [spaces Hsplit].
apply (f_equal String.rev) in Hsplit. rewrite rev_involutive, rev_append in Hsplit.
destruct (String.rev (trimStart (String.rev (trimStart s)))) as [|c rest]; [done|].
rewrite Hsplit, app_cons in Hstart. done.
Qed.

(** Trimming a trimmed string changes nothing. *)
Lemma trim_trim (s : string) : trim (trim s) = trim s.
Proof.
unfold trim at 1. rewrite (trimStart_fixed (trim s)) by apply trim_noLeadingSpace.
unfold trim. rewrite rev_involutive.
by rewrite (trimStart_fixed (trimStart _)) by apply trimStart_noLeadingSpace.
Qed.

(** X14. Every path [getChangedFiles] returns is a non-empty string.  From
    the explicit list each path comes trimmed (trimming it again changes
    nothing); from the push event no path comes twice. *)
Theorem getChangedFiles_paths (changedFilesList : string) (eventPath : option string)
    (eventData : option (list (option Commit))) :
  let files := getChangedFiles changedFilesList eventPath eventData in
  Forall (λ file, file ≠ "") files
  ∧ (changedFilesList ≠ "" → Forall (λ file, trim file = file) files)
  ∧ (changedFilesList = "" → NoDup files).
Proof.
unfold getChangedFiles. destruct (String.eqb_spec changedFilesList "") as [->|Hlist].
- split; [|split; [done|]].
  + destruct eventPath as [path|]; [|constructor].
    destruct (String.eqb path ""); [constructor|].
    destruct eventData as [commits|]; simpl; [|constructor].
    apply Forall_forall. intros file Hfile.
    assert (file ∈ commits ≫= commitFiles) as Hin.
    { unfold changedFilesFromEvent, dedupBy in Hfile.
      by apply elem_of_dedupFrom in Hfile as [? _]. }
    apply list_elem_of_bind in Hin as ([commit|] & Hcommit & _); simpl in *.
    * by apply list_elem_of_filter in Hcommit as [? _].
    * by apply elem_of_nil in Hcommit.
  + intros _. destruct eventPath as [path|]; [|constructor].
    destruct (String.eqb path ""); [constructor|].
    destruct eventData as [commits|]; simpl; [|constructor].
    pose proof (NoDup_dedupFrom id ∅ (commits ≫= commitFiles)) as Hnd.
    by rewrite list_fmap_id in Hnd.
- unfold changedFilesFromList. split; [|split; [|done]].
  + apply Forall_forall. by intros file [? _]%list_elem_of_filter.
  + intros _. apply Forall_forall. intros file [_ Hfile]%list_elem_of_filter.
    apply list_elem_of_fmap in Hfile as (piece & -> & _). apply trim_trim.
Qed.

Example changed_files_from_list :
  getChangedFiles " models/orders.yml , README.md,, " None None
  = ["models/orders.yml"; "README.md"].
Proof. vm_compute. reflexivity. Qed.

Example changed_files_from_event :
  getChangedFiles "" (Some "/github/workflow/event.json")
    (Some [Some {| commit_added := ["a.yml"]; commit_modified := ["b.yml"; ""];
                   commit_removed := [] |};
           None;
           Some {| commit_added := []; commit_modified := ["a.yml"];
                   commit_removed := ["c.yml"] |}])
  = ["a.yml"; "b.yml"; "c.yml"].
Proof. vm_compute. reflexivity. Qed.

(** ** Output options: what the flags depend on *)

Lemma lowerChar_space (c : ascii) : Ascii.is_space (lowerChar c) = Ascii.is_space c.
Proof. by destruct c as [[] [] [] [] [] [] [] []]. Qed.

Lemma lowerChar_comma (c : ascii) : Ascii.eqb (lowerChar c) ","%char = Ascii.eqb c ","%char.
Proof. by destruct c as [[] [] [] [] [] [] [] []]. Qed.

Lemma lowerChar_lowerChar (c : ascii) : lowerChar (lowerChar c) = lowerChar c.
Proof. by destruct c as [[] [] [] [] [] [] [] []]. Qed.

Lemma toLowerCase_app (s t : string) :
  toLowerCase (s +:+ t) = toLowerCase s +:+ toLowerCase t.
Proof. induction s as [|c s IH]; [done|]. by rewrite app_cons; simpl; rewrite IH. Qed.

Lemma toLowerCase_rev (s : string) : toLowerCase (String.rev s) = String.rev (toLowerCase s).
Proof.
induction s as [|c s IH]; [done|]. simpl. by rewrite !rev_cons, toLowerCase_app, IH.
Qed.

Lemma toLowerCase_trimStart (s : string) :
  trimStart (toLowerCase s) = toLowerCase (trimStart s).
Proof.
induction s as [|c s IH]; [done|]. simpl. rewrite lowerChar_space.
by destruct (Ascii.is_space c).
Qed.

Lemma toLowerCase_trim (s : string) : trim (toLowerCase s) = toLowerCase (trim s).
Proof.
unfold trim.
by rewrite toLowerCase_trimStart, <- toLowerCase_rev, toLowerCase_trimStart, toLowerCase_rev.
Qed.

Lemma toLowerCase_splitComma (s : string) :
  splitComma (toLowerCase s) = toLowerCase <$> splitComma s.
Proof.
induction s as [|c s IH]; [done|]. simpl. rewrite lowerChar_comma, IH.
destruct (Ascii.eqb c ","%char); [done|]. by destruct (splitComma s).
Qed.

Lemma toLowerCase_toLowerCase (s : string) : toLowerCase (toLowerCase s) = toLowerCase s.
Proof. induction s as [|c s IH]; [done|]. simpl. by rewrite lowerChar_lowerChar, IH. Qed.

Lemma toLowerCase_empty (s : string) : toLowerCase s = "" ↔ s = "".
Proof. by destruct s. Qed.

Lemma optionKeys_toLowerCase (s : string) : optionKeys (toLowerCase s) = optionKeys s.
Proof.
unfold optionKeys. rewrite toLowerCase_splitComma, <- list_fmap_compose.
apply list_fmap_ext. intros i piece _. simpl.
by rewrite toLowerCase_trim, toLowerCase_toLowerCase.
Qed.

Lemma hasKey_same (keys keys' : list string) (k : string) :
  (∀ key, key ∈ keys ↔ key ∈ keys') → hasKey keys k = hasKey keys' k.
Proof. intros Hsame. unfold hasKey. apply bool_decide_ext, Hsame. Qed.

Lemma parseConfigurableKeys_same_keys (s s' : string) :
  s ≠ "" → s' ≠ "" → (∀ key, key ∈ optionKeys s ↔ key ∈ optionKeys s') →
  parseConfigurableKeys (JStr s) = parseConfigurableKeys (JStr s').
Proof.
intros Hs Hs' Hsame. unfold parseConfigurableKeys.
destruct (String.eqb_spec s "") as [|_]; [done|].
destruct (String.eqb_spec s' "") as [|_]; [done|].
by rewrite !(hasKey_same _ _ _ Hsame).
Qed.

(** X15. For non-empty inputs the display flags depend only on which
    entries the comma-separated list has, once trimmed and lower-cased:
    neither their order, nor repetitions, nor the white space around them
    matter. *)
Theorem flags_depend_on_key_set (s s' : string) :
  s ≠ "" → s' ≠ "" → (∀ key, key ∈ optionKeys s ↔ key ∈ optionKeys s') →
  parseConfigurableKeys (JStr s) = parseConfigurableKeys (JStr s').
Proof. apply parseConfigurableKeys_same_keys. Qed.

Lemma flags_depend_on_key_set_witness :
  parseConfigurableKeys (JStr "direct_asset_list,yml_column_changes")
  = parseConfigurableKeys (JStr " yml_column_changes , direct_asset_list,yml_column_changes").
Proof.
apply flags_depend_on_key_set; [done..|].
intros key. vm_compute optionKeys. set_solver.
Defined.

(** X16. The option keys are case-insensitive: two inputs that differ only
    in the case of their letters give the same flags. *)
Theorem flags_ignore_case (s s' : string) :
  toLowerCase s = toLowerCase s' →
  parseConfigurableKeys (JStr s) = parseConfigurableKeys (JStr s').
Proof.
intros Hcase. destruct (decide (s = "")) as [->|Hs].
- by destruct s'.
- assert (s' ≠ "") as Hs'.
  { intros ->. by destruct s. }
  apply parseConfigurableKeys_same_keys; [done..|].
  intros key. by rewrite <- (optionKeys_toLowerCase s), Hcase, optionKeys_toLowerCase.
Qed.

Lemma flags_ignore_case_witness :
  parseConfigurableKeys (JStr "Direct_Asset_Count,YML_COLUMN_CHANGES")
  = parseConfigurableKeys (JStr "direct_asset_count,yml_column_changes").
Proof. by apply flags_ignore_case. Defined.

(** ** Column impacts of a response *)

Lemma elem_of_columnImpactsOf (tables : list LineageTable) (changedColumns : list string)
    (record : ColumnImpactRecord) :
  record ∈ columnImpactsOf tables changedColumns
  ↔ ∃ table field changedCol,
      table ∈ tables ∧ field ∈ lt_fields table ∧ changedCol ∈ changedColumns
      ∧ matchesColumn (lf_name field) changedCol = true
      ∧ record = columnImpactOf table field.
Proof.
unfold columnImpactsOf. rewrite list_elem_of_bind. split.
- intros (table & Hrecord & Htable).
  apply list_elem_of_fmap in Hrecord as (field & -> & Hfield).
  apply list_elem_of_filter in Hfield as [Himpacted Hfield].
  apply Is_true_true, isImpacted_true in Himpacted as (changedCol & Hcol & Hmatch).
  by exists table, field, changedCol.
- intros (table & field & changedCol & Htable & Hfield & Hcol & Hmatch & ->).
  exists table. split; [|done]. apply list_elem_of_fmap_2, list_elem_of_filter.
  split; [|done]. apply Is_true_true, isImpacted_true. by exists changedCol.
Qed.

(** X17. The column impacts of a response are the records of exactly those
    fields that match some changed column, each tagged [Column Referenced];
    without changed columns there is none, and with at least one changed
    column every field that has no name (or an empty one) is reported,
    whatever the changed columns are. *)
Theorem columnImpactsOf_relevant (tables : list LineageTable) (changedColumns : list string) :
  (∀ record,
     record ∈ columnImpactsOf tables changedColumns
     ↔ ∃ table field changedCol,
         table ∈ tables ∧ field ∈ lt_fields table ∧ changedCol ∈ changedColumns
         ∧ matchesColumn (lf_name field) changedCol = true
         ∧ record = columnImpactOf table field)
  ∧ Forall (λ record, ci_impact_type record = JStr "Column Referenced")
           (columnImpactsOf tables changedColumns)
  ∧ columnImpactsOf tables [] = []
  ∧ (changedColumns ≠ [] →
     ∀ table field, table ∈ tables → field ∈ lt_fields table →
                    lf_name field = None ∨ lf_name field = Some "" →
                    columnImpactOf table field ∈ columnImpactsOf tables changedColumns).
Proof.
split; [apply elem_of_columnImpactsOf|]. split; [|split].
- apply Forall_forall.
  by intros record (table & field & _ & _ & _ & _ & _ & ->)%elem_of_columnImpactsOf.
- unfold columnImpactsOf. induction tables as [|table tables IH]; [done|].
  rewrite bind_cons, IH, app_nil_r.
  rewrite filter_none; [done|]. apply Forall_forall. intros field _ Hfalse.
  by unfold isImpacted in Hfalse.
- intros Hchanged table field Htable Hfield Hname.
  destruct changedColumns as [|changedCol rest]; [done|].
  apply elem_of_columnImpactsOf. exists table, field, changedCol.
  split; [done|]. split; [done|]. split; [by left|]. split; [|done].
  destruct Hname as [-> | ->]; apply matchesColumn_unnamed.
Qed.

(** ** Task matching: order, files and names *)

Lemma recordModel_fromFiles (modelNameOf : string → option string) (files : list string)
    (acc : list string * gmap string string) (file : string) :
  file ∈ files → modelsFromFiles files acc →
  modelsFromFiles files (recordModel modelNameOf acc file).
Proof.
intros Hfile [Hmodels Hmap]. destruct acc as [models map]. unfold recordModel.
destruct (modelNameOf file) as [modelName|]; [|done].
destruct (String.eqb_spec modelName "") as [|Hname]; [done|].
split; simpl in *.
- intros model [Hold| ->%list_elem_of_singleton]%elem_of_app.
  + destruct (Hmodels model Hold) as [Hne Hsome]. split; [done|].
    destruct (decide (modelName = model)) as [->|Hother].
    * by rewrite getModelFile_set.
    * by rewrite getModelFile_set_ne.
  + split; [done|]. by rewrite getModelFile_set.
- intros model file' [->|Hold]%setModelFile_lookup; [done|]. by apply (Hmap model).
Qed.

Lemma collectModels_fromFiles (modelNameOf : string → option string) (files : list string) :
  modelsFromFiles files (collectModels modelNameOf files).
Proof.
unfold collectModels. apply foldl_invariant.
- split; [by intros ? ?%elem_of_nil | intros model file; simpl; by rewrite lookup_empty].
- intros acc file Hfile Hacc. by apply recordModel_fromFiles.
Qed.

Lemma lower_nonempty (s : string) : s ≠ "" → toLowerCase s ≠ "".
Proof. by destruct s. Qed.

(** A task that has a model with the same lower-cased name gets through the
    [map] and the last [filter], with the file of the model or, for the
    model [__proto__], with the prototype object. *)
Lemma keepWithFile_matching (changedModels : list string)
    (modelNameToFileMap : gmap string string) (files : list string) (task : Task) :
  modelsFromFiles files (changedModels, modelNameToFileMap) →
  Forall (λ file, file ≠ "") files →
  existsb (sameModel task) changedModels = true →
  ∃ filePath,
    keepWithFile (withFilePath changedModels modelNameToFileMap task)
    = Some {| mt_task := task; mt_entity := js_or (t_task_id task) (JStr "");
              mt_filePath := filePath |}
    ∧ match filePath with
      | ChangedFile file => file ∈ files
      | ObjectPrototype =>
          "__proto__" ∈ changedModels
          ∧ toLowerCase (orEmpty (t_name task)) = "__proto__"
      end
    ∧ ∃ name, t_name task = Some name ∧ name ≠ "".
Proof.
intros [Hmodels Hmap] Hfiles Hsome. simpl in *.
destruct (List.find (sameModel task) changedModels) as [found|] eqn:Hfind.
- pose proof (find_some _ _ Hfind) as [Hfound Hsame].
  apply list_elem_of_In in Hfound. apply sameModel_true in Hsame.
  destruct (Hmodels found Hfound) as [Hne [filePath Hfile]].
  assert (∃ name, t_name task = Some name ∧ name ≠ "") as Hname.
  { apply lower_nonempty in Hne.
    destruct (t_name task) as [name|]; simpl in *; [|congruence].
    exists name. split; [done|]. intros ->. simpl in Hsame. congruence. }
  exists filePath. unfold withFilePath. simpl. rewrite Hfile.
  unfold getModelFile in Hfile.
  destruct (String.eqb_spec found "__proto__") as [->|Hother].
  + injection Hfile as <-. split; [done|]. split; [|done].
    split; [done|]. by rewrite <- Hsame.
  + destruct (modelNameToFileMap !! found) as [file|] eqn:Hstored; [|done].
    injection Hfile as <-. pose proof (Hmap found file Hstored) as Hin.
    split; [|by split]. destruct (String.eqb_spec file "") as [->|_]; [|done].
    rewrite Forall_forall in Hfiles. by destruct (Hfiles "" Hin).
- apply existsb_exists in Hsome as (model & Hmodel & Hsame).
  pose proof (find_none _ _ Hfind model Hmodel). congruence.
Qed.

Lemma omap_cons_Some {X Y : Type} (f : X → option Y) (x : X) (y : Y) (l : list X) :
  f x = Some y → omap f (x :: l) = y :: omap f l.
Proof. intros Hx. simpl. by rewrite Hx. Qed.

Lemma matchedTasks_tasks (changedModels : list string)
    (modelNameToFileMap : gmap string string) (files : list string) (tasks : list Task) :
  modelsFromFiles files (changedModels, modelNameToFileMap) →
  Forall (λ file, file ≠ "") files →
  Forall (λ task, existsb (sameModel task) changedModels = true) tasks →
  mt_task <$> omap keepWithFile (withFilePath changedModels modelNameToFileMap <$> tasks)
  = tasks.
Proof.
intros Hinv Hfiles. induction 1 as [|task tasks Htask _ IH]; [done|].
destruct (keepWithFile_matching _ _ _ task Hinv Hfiles Htask) as (file & Hkeep & _).
rewrite fmap_cons, (omap_cons_Some _ _ _ _ Hkeep), fmap_cons. simpl. by rewrite IH.
Qed.

Lemma yml_files_nonempty (changedFiles : list string) :
  Forall (λ file, file ≠ "") (filter (λ file, endsWith file ".yml") changedFiles).
Proof.
apply Forall_forall. intros file [Hyml _]%list_elem_of_filter.
apply Is_true_true in Hyml. by apply (endsWith_nonempty _ _ Hyml).
Qed.

(** X18. The matched tasks are the Coalesce tasks of the listing whose
    lower-cased name is that of a changed model, in the order of the
    listing and as often as the listing has them: the order of the changed
    models plays no part. *)
Theorem matchTasks_order (modelNameOf : string → option string)
    (changedFiles : list string) (tasks : list Task) :
  mt_task <$> matchTasks modelNameOf changedFiles tasks
  = filter (λ task, isCoalesceTask task
                    && existsb (sameModel task) (changedModelsOf modelNameOf changedFiles))
           tasks.
Proof.
unfold matchTasks, changedModelsOf.
pose proof (collectModels_fromFiles modelNameOf
              (filter (λ file, endsWith file ".yml") changedFiles)) as Hinv.
destruct (collectModels modelNameOf _) as [changedModels modelNameToFileMap].
unfold matchedTasks. simpl.
rewrite (matchedTasks_tasks _ _ _ _ Hinv (yml_files_nonempty changedFiles)).
- rewrite list_filter_filter. apply list_filter_iff. intros task.
  rewrite andb_True. tauto.
- apply Forall_forall. intros task [Hsome _]%list_elem_of_filter.
  by apply Is_true_true.
Qed.

(** X19. Every matched task has a non-empty name and carries its task id
    (or the empty string) as entity.  Its file path is one of the changed
    files, whose name ends in [.yml]; the one exception is a task whose
    lower-cased name is [__proto__], matched for a changed model of that
    name, for which the script reads the prototype of the object instead
    of a file. *)
Theorem matchTasks_files (modelNameOf : string → option string)
    (changedFiles : list string) (tasks : list Task) :
  Forall (λ matched,
            (∃ name, t_name (mt_task matched) = Some name ∧ name ≠ "")
            ∧ mt_entity matched = js_or (t_task_id (mt_task matched)) (JStr "")
            ∧ match mt_filePath matched with
              | ChangedFile path => path ∈ changedFiles ∧ endsWith path ".yml" = true
              | ObjectPrototype =>
                  "__proto__" ∈ changedModelsOf modelNameOf changedFiles
                  ∧ toLowerCase (orEmpty (t_name (mt_task matched))) = "__proto__"
              end)
         (matchTasks modelNameOf changedFiles tasks).
Proof.
unfold matchTasks, changedModelsOf.
pose proof (collectModels_fromFiles modelNameOf
              (filter (λ file, endsWith file ".yml") changedFiles)) as Hinv.
destruct (collectModels modelNameOf _) as [changedModels modelNameToFileMap].
apply Forall_forall. intros matched Hmatched. unfold matchedTasks in Hmatched.
apply list_elem_of_omap in Hmatched as (entry & Hentry & Hkeep).
apply list_elem_of_fmap in Hentry as (task & -> & Htask).
apply list_elem_of_filter in Htask as [Hsome _]. apply Is_true_true in Hsome.
destruct (keepWithFile_matching _ _ _ task Hinv (yml_files_nonempty changedFiles) Hsome)
  as (filePath & Hkeep' & Hfile & Hname).
rewrite Hkeep' in Hkeep. injection Hkeep as <-. simpl.
split; [done|]. split; [done|].
destruct filePath as [path|]; [|done].
apply list_elem_of_filter in Hfile as [Hyml Hfile]. by apply Is_true_true in Hyml.
Qed.

(** ** Column extraction: entries that throw, and the two well-formed shapes *)

Lemma arrayMap_null {B : Type} (f : JsVal → option B) (items : list JsVal) :
  f JNull = None → JNull ∈ items → arrayMap f (JArr items) = None.
Proof.
intros Hnull Hin. simpl. apply mapM_None, Exists_exists. by exists JNull.
Qed.

Lemma coalesceColumns_object (schema v : JsVal) :
  coalesceColumns schema = Some v → truthy v = true → truthy schema = true.
Proof. destruct schema; simpl; try done; by intros [= <-]. Qed.

Lemma getProp_truthy_object (schema v : JsVal) (p : string) :
  getProp schema p = Some v → truthy v = true → truthy schema = true.
Proof. destruct schema; simpl; try done; by intros [= <-]. Qed.

Section ExtractionMore.
Context `{YamlApi}.

(** X20. One entry that throws discards all columns: when the columns
    section of either format is no array, or is an array with a null entry
    in it, the result is the empty list, whatever the other entries are. *)
Theorem bad_entry_discards_all (content : string) (schema : JsVal) :
  yaml_load content = Some schema →
  (∀ cols, coalesceColumns schema = Some cols → truthy cols = true →
           (∀ items, cols = JArr items → JNull ∈ items) →
           extractColumnsFromYML content = [])
  ∧ (∀ v columns, coalesceColumns schema = Some v → truthy v = false →
                  getProp schema "columns" = Some columns → truthy columns = true →
                  (∀ items, columns = JArr items → JNull ∈ items) →
                  extractColumnsFromYML content = []).
Proof.
intros Hload. unfold extractColumnsFromYML, extractColumnsFromSchema, extractColumnsTry.
rewrite Hload. simpl. split.
- intros cols Hchain Hcols Hbad.
  rewrite (coalesceColumns_object _ _ Hchain Hcols), Hchain. simpl. rewrite Hcols.
  destruct cols as [| | | | |items|]; try done.
  by rewrite (arrayMap_null coalesceColumn items eq_refl (Hbad items eq_refl)).
- intros v columns Hchain Hv Hcolumns Htruthy Hbad.
  rewrite (getProp_truthy_object _ _ _ Hcolumns Htruthy), Hchain. simpl.
  rewrite Hv, Hcolumns. simpl. rewrite Htruthy.
  destruct columns as [| | | | |items|]; try done.
  by rewrite (arrayMap_null fallbackColumn items eq_refl (Hbad items eq_refl)).
Qed.

Lemma mapM_coalesce_mappings (entries : list (list (string * JsVal))) :
  mapM coalesceColumn (JObj <$> entries) = Some (mappingColumn <$> entries).
Proof.
apply mapM_Some. induction entries as [|fields entries IH]; constructor; done.
Qed.

Lemma named_mappings (entries : list (list (string * JsVal))) :
  named (mappingColumn <$> entries)
  = columnOfMapping <$> filter (λ fields, truthy (assoc "name" fields)) entries.
Proof.
unfold named. induction entries as [|fields entries IH]; [done|].
rewrite fmap_cons. destruct (truthy (assoc "name" fields)) eqn:Hname.
- assert (mappingColumn fields = columnOfMapping fields) as Hsame.
  { unfold mappingColumn, columnOfMapping, js_or at 1. by rewrite Hname. }
  rewrite filter_cons_True.
  + rewrite (filter_cons_True _ fields) by by rewrite Hname.
    by rewrite fmap_cons, IH, Hsame.
  + rewrite Hsame. simpl. by rewrite Hname.
- rewrite filter_cons_False.
  + rewrite (filter_cons_False _ fields); [done|]. by apply Is_true_false.
  + apply Is_true_false. simpl. unfold js_or. by rewrite Hname.
Qed.

(** X21. For a Coalesce node whose columns are mappings, the result lists,
    in order, the mappings that have a truthy name, each with its name and
    with the empty string or false for a data type, nullable or primary
    key flag that is missing or falsy. *)
Theorem coalesce_mappings_extracted (content : string) (schema : JsVal)
    (entries : list (list (string * JsVal))) :
  yaml_load content = Some schema →
  coalesceColumns schema = Some (JArr (JObj <$> entries)) →
  extractColumnsFromYML content
  = columnOfMapping <$> filter (λ fields, truthy (assoc "name" fields)) entries.
Proof.
intros Hload Hchain. unfold extractColumnsFromYML, extractColumnsFromSchema, extractColumnsTry.
rewrite Hload. simpl.
rewrite (coalesceColumns_object _ _ Hchain eq_refl), Hchain. simpl.
rewrite mapM_coalesce_mappings. simpl. apply named_mappings.
Qed.

Lemma mapM_fallback_names (names : list string) :
  mapM fallbackColumn (JStr <$> names) = Some ((λ name, nameOnly (JStr name)) <$> names).
Proof.
apply mapM_Some. induction names as [|name names IH]; [constructor|].
rewrite !fmap_cons. by constructor.
Qed.

Lemma named_names (names : list string) :
  named ((λ name, nameOnly (JStr name)) <$> names)
  = (λ name, nameOnly (JStr name)) <$> filter (λ name, name ≠ "") names.
Proof.
unfold named. induction names as [|name names IH]; [done|].
rewrite fmap_cons. destruct (String.eqb_spec name "") as [->|Hname].
- rewrite filter_cons_False by (by intros []).
  by rewrite (filter_cons_False _ "") by (by intros Hne).
- rewrite filter_cons_True.
  + by rewrite (filter_cons_True _ name), fmap_cons, IH.
  + simpl. by destruct (String.eqb_spec name "").
Qed.

(** X22. For a document without Coalesce columns whose top-level columns
    are a list of strings, the result lists the non-empty strings as
    names, in order. *)
Theorem plain_names_extracted (content : string) (schema v : JsVal) (names : list string) :
  yaml_load content = Some schema →
  coalesceColumns schema = Some v → truthy v = false →
  getProp schema "columns" = Some (JArr (JStr <$> names)) →
  extractColumnsFromYML content
  = (λ name, nameOnly (JStr name)) <$> filter (λ name, name ≠ "") names.
Proof.
intros Hload Hchain Hv Hcolumns.
unfold extractColumnsFromYML, extractColumnsFromSchema, extractColumnsTry.
rewrite Hload. simpl.
rewrite (getProp_truthy_object _ _ _ Hcolumns eq_refl), Hchain. simpl.
rewrite Hv, Hcolumns. simpl.
rewrite mapM_fallback_names. simpl. apply named_names.
Qed.
End ExtractionMore.

Lemma bad_entry_discards_all_witness :
  @extractColumnsFromYML
    {| yaml_load content := Some (coalesceDoc [JObj [("name", JStr "id")]; JNull]) |}
    "operation: {metadata: {columns: [{name: id}, null]}}"
  = [].
Proof.
destruct (@bad_entry_discards_all
            {| yaml_load content := Some (coalesceDoc [JObj [("name", JStr "id")]; JNull]) |}
            "operation: {metadata: {columns: [{name: id}, null]}}"
            (coalesceDoc [JObj [("name", JStr "id")]; JNull]) eq_refl) as [Hcoalesce _].
apply (Hcoalesce (JArr [JObj [("name", JStr "id")]; JNull])); [done | done |].
intros items [= <-]. apply list_elem_of_lookup. by exists 1.
Defined.

Lemma coalesce_mappings_extracted_witness :
  extractColumnsFromYML ordersHeadText = [column "id"; column "total"; column "tax"].
Proof.
rewrite (coalesce_mappings_extracted ordersHeadText ordersHeadDoc
           [[("name", JStr "id")]; [("name", JStr "total")]; [("name", JStr "tax")];
            [("dataType", JStr "NUMBER")]]); done.
Defined.

Lemma plain_names_extracted_witness :
  @extractColumnsFromYML namesYaml namesText
  = [nameOnly (JStr "id"); nameOnly (JStr "total")].
Proof.
by rewrite (@plain_names_extracted namesYaml namesText
              (JObj [("columns", JArr [JStr "id"; JStr ""; JStr "total"])])
              JUndefined ["id"; ""; "total"]).
Defined.

(** ** Column-level analysis with the changed columns of a YAML document *)

Lemma someColumnMatches_strings (field_name : option string) (changedColumns : list string) :
  someColumnMatches field_name (JStr <$> changedColumns)
  = Some (isImpacted field_name changedColumns).
Proof.
unfold isImpacted. induction changedColumns as [|changedCol rest IH]; [done|].
rewrite fmap_cons. simpl. rewrite IH. by destruct (matchesColumn field_name changedCol).
Qed.

Lemma mapM_total {X Y : Type} (f : X → option Y) (g : X → Y) (l : list X) :
  (∀ x, f x = Some (g x)) → mapM f l = Some (g <$> l).
Proof.
intros Hf. apply mapM_Some. induction l as [|x l IH]; [constructor|].
rewrite fmap_cons. by constructor.
Qed.

Lemma mjoin_selected {X Y : Type} (P : X → bool) (g : X → Y) (l : list X) :
  mjoin ((λ x, if P x then [g x] else []) <$> l) = g <$> filter (λ x, P x) l.
Proof.
induction l as [|x l IH]; [done|]. rewrite fmap_cons. simpl. rewrite IH.
destruct (P x) eqn:Hx.
- by rewrite filter_cons_True by by rewrite Hx.
- rewrite filter_cons_False; [done|]. by apply Is_true_false.
Qed.

Lemma tableImpactsTry_strings (changedColumns : list string) (table : LineageTable) :
  tableImpactsTry (JStr <$> changedColumns) table
  = Some (columnImpactOf table
            <$> filter (λ field, isImpacted (lf_name field) changedColumns) (lt_fields table)).
Proof.
unfold tableImpactsTry.
rewrite (mapM_total _ (λ field, if isImpacted (lf_name field) changedColumns
                                then [columnImpactOf table field] else [])).
- simpl. by rewrite mjoin_selected.
- intros field. by rewrite someColumnMatches_strings.
Qed.

Lemma tableImpactsTry_throws (value : JsVal) (rest : list JsVal) (table : LineageTable) :
  (∀ s, value ≠ JStr s) → lt_fields table ≠ [] →
  tableImpactsTry (value :: rest) table = None.
Proof.
intros Hvalue Hfields. unfold tableImpactsTry.
destruct (lt_fields table) as [|field fields]; [done|]. simpl.
destruct value as [| | | |s| |]; try done. by destruct (Hvalue s).
Qed.

(** X23. When all changed column names are strings the analysis of a
    response returns the records of the matching fields, table by table and
    field by field.  When the first changed column is no string (a number
    or a mapping of the YAML document) and some table of the response has a
    field, the comparison throws and the analysis returns nothing. *)
Theorem getColumnLevelImpactAnalysis_names (tables : list LineageTable) :
  (∀ changedColumns : list string,
     getColumnLevelImpactAnalysis tables (JStr <$> changedColumns)
     = columnImpactsOf tables changedColumns)
  ∧ (∀ value rest,
       (∀ s, value ≠ JStr s) → Exists (λ table, lt_fields table ≠ []) tables →
       getColumnLevelImpactAnalysis tables (value :: rest) = []).
Proof.
split.
- intros changedColumns. unfold getColumnLevelImpactAnalysis, columnImpactsTry, columnImpactsOf.
  rewrite (mapM_total _ _ _ (tableImpactsTry_strings changedColumns)). simpl.
  induction tables as [|table tables IH]; [done|].
  rewrite fmap_cons, bind_cons. simpl. by rewrite IH.
- intros value rest Hvalue Htables. unfold getColumnLevelImpactAnalysis, columnImpactsTry.
  assert (mapM (tableImpactsTry (value :: rest)) tables = None) as ->; [|done].
  apply mapM_None. eapply Exists_impl; [done|]. intros table Hfields. simpl in Hfields.
  by apply tableImpactsTry_throws.
Qed.

(** ** The impact loop: objects as entry lists *)

Lemma objUpdate_id {V : Type} (key : string) (entries : list (string * V)) :
  objUpdate key id entries = entries.
Proof.
unfold objUpdate. rewrite <- (list_fmap_id entries) at 2.
apply list_fmap_ext. intros i [k v] _. simpl. by destruct (String.eqb k key).
Qed.

Lemma objUpdate_keys {V : Type} (key : string) (f : V → V) (entries : list (string * V)) :
  (objUpdate key f entries).*1 = entries.*1.
Proof.
unfold objUpdate. rewrite <- list_fmap_compose.
apply list_fmap_ext. intros i [k v] _. simpl. by destruct (String.eqb k key).
Qed.

Lemma onEntries_keys {V : Type} (f : V → V) (entries : list (string * V)) :
  (onEntries f entries).*1 = entries.*1.
Proof. unfold onEntries. rewrite <- list_fmap_compose. by apply list_fmap_ext. Qed.

(** A loop of updates changes every entry by the steps of its own key, in
    the order of the loop. *)
Lemma foldl_objUpdate {V X : Type} (key : X → string) (g : X → V → V) (l : list X)
    (entries : list (string * V)) :
  foldl (λ es x, objUpdate (key x) (g x) es) entries l
  = (λ entry, (entry.1, foldl (λ v x, g x v) entry.2 (filter (λ x, key x = entry.1) l)))
    <$> entries.
Proof.
revert entries. induction l as [|x l IH]; intros entries; simpl.
- rewrite <- (list_fmap_id entries) at 1. apply list_fmap_ext. by intros i [k v] _.
- rewrite IH. unfold objUpdate. rewrite <- list_fmap_compose.
  apply list_fmap_ext. intros i [k v] _. simpl.
  destruct (String.eqb_spec k (key x)) as [->|Hne]; simpl.
  + by rewrite filter_cons_True.
  + by rewrite filter_cons_False by (by intros Heq; apply Hne).
Qed.

Lemma foldl_pair {B C X : Type} (f : B → X → B) (g : C → X → C) (l : list X) (b : B) (c : C) :
  foldl (λ (acc : B * C) x, (f acc.1 x, g acc.2 x)) (b, c) l = (foldl f b l, foldl g c l).
Proof. revert b c. induction l as [|x l IH]; intros b c; [done|]. simpl. apply IH. Qed.

Lemma elem_of_objSet {V : Type} (key : string) (value : V) (entries : list (string * V))
    (entry : string * V) :
  entry ∈ objSet key value entries → entry = (key, value) ∨ entry ∈ entries.
Proof.
induction entries as [|[k v] rest IH]; simpl.
- intros ->%list_elem_of_singleton. by left.
- destruct (String.eqb_spec k key) as [->|Hne].
  + intros [->|Hrest]%elem_of_cons; [by left | right; by right].
  + intros [->|Hrest]%elem_of_cons; [right; by left|].
    destruct (IH Hrest) as [->|Hin]; [by left | right; by right].
Qed.

Lemma objSet_keys {V : Type} (key : string) (value : V) (entries : list (string * V)) :
  (objSet key value entries).*1
  = if decide (key ∈ entries.*1) then entries.*1 else entries.*1 ++ [key].
Proof.
induction entries as [|[k v] rest IH]; [done|]. cbn [objSet].
destruct (String.eqb_spec k key) as [->|Hne]; rewrite !fmap_cons; cbn [fst].
- by rewrite decide_True by by left.
- rewrite IH. destruct (decide (key ∈ rest.*1)) as [Hin|Hout].
  + by rewrite decide_True by by right.
  + rewrite decide_False; [done|]. by intros [?|?]%elem_of_cons.
Qed.

Section LoopFacts.
Context `{LineageApi}.
Variable changedColumns : ChangedColumns.

Lemma processTask_steps (state : ImpactState) (task : MatchedTask) :
  processTask changedColumns state task
  = (objUpdate (filePathKey (mt_filePath task)) (assetStep task) state.1,
     objUpdate (filePathKey (mt_filePath task)) (columnStep changedColumns task) state.2).
Proof.
unfold processTask, assetStep, columnStep.
destruct (impactAnalysis _ _) as [impactTables indirectImpact]. simpl.
destruct (taskChangedColumns changedColumns (mt_filePath task)); [|done].
by rewrite objUpdate_id.
Qed.

Lemma collectImpacts_steps (matchedTasks : list MatchedTask) :
  collectImpacts changedColumns matchedTasks
  = (foldl (λ es task, objUpdate (filePathKey (mt_filePath task)) (assetStep task) es)
           (initImpacts matchedTasks).1 matchedTasks,
     foldl (λ es task, objUpdate (filePathKey (mt_filePath task)) (columnStep changedColumns task) es)
           (initImpacts matchedTasks).2 matchedTasks).
Proof.
unfold collectImpacts. destruct (initImpacts matchedTasks) as [files columns].
rewrite <- foldl_pair. revert files columns.
induction matchedTasks as [|task tasks IH]; intros files columns; [done|].
simpl. rewrite processTask_steps. apply IH.
Qed.

(** The keys after the first loop: the file paths of the matched tasks,
    each once, the same for the two objects. *)
Lemma initImpacts_keys (matchedTasks : list MatchedTask) :
  NoDup (initImpacts matchedTasks).1.*1
  ∧ (initImpacts matchedTasks).2.*1 = (initImpacts matchedTasks).1.*1
  ∧ ∀ path, path ∈ (initImpacts matchedTasks).1.*1
            ↔ ∃ task, task ∈ matchedTasks ∧ filePathKey (mt_filePath task) = path.
Proof.
unfold initImpacts.
assert (∀ (tasks : list MatchedTask) (state : ImpactState),
          NoDup state.1.*1 → state.2.*1 = state.1.*1 →
          let final :=
            foldl (λ (state : ImpactState) task,
                     (objSet (filePathKey (mt_filePath task))
                        {| fi_direct := []; fi_indirect := [];
                           fi_taskName := t_name (mt_task task) |} state.1,
                      objSet (filePathKey (mt_filePath task))
                        {| cs_direct := []; cs_indirect := [];
                           cs_taskName := t_name (mt_task task);
                           cs_changedColumns := [] |} state.2))
                  state tasks in
          NoDup final.1.*1 ∧ final.2.*1 = final.1.*1
          ∧ ∀ path, path ∈ final.1.*1
                    ↔ path ∈ state.1.*1 ∨ ∃ task, task ∈ tasks ∧ filePathKey (mt_filePath task) = path)
  as Hloop.
{ induction tasks as [|task tasks IH]; intros state Hnd Hsame; simpl.
  - split; [done|]. split; [done|]. intros path. split; [by left|].
    by intros [?|(task & ?%elem_of_nil & _)].
  - edestruct IH as (Hnd' & Hsame' & Hkeys); [| |split; [exact Hnd'|split; [exact Hsame'|]]].
    + simpl. rewrite objSet_keys. destruct (decide _); [done|].
      apply NoDup_app. split; [done|]. split; [|apply NoDup_singleton].
      by intros path Hin ->%list_elem_of_singleton.
    + simpl. by rewrite !objSet_keys, Hsame.
    + intros path. rewrite Hkeys. simpl. rewrite objSet_keys. split.
      * intros [Hin|(other & Hother & Hpath)].
        -- destruct (decide _); [by left|].
           apply elem_of_app in Hin as [?| ->%list_elem_of_singleton]; [by left|].
           right. exists task. split; [by left | done].
        -- right. exists other. split; [by right | done].
      * intros [Hin|(other & [->|Hother]%elem_of_cons & Hpath)].
        -- left. destruct (decide _); [done|]. apply elem_of_app. by left.
        -- left. rewrite <- Hpath. destruct (decide _); [done|].
           apply elem_of_app. right. by apply list_elem_of_singleton.
        -- right. by exists other. }
destruct (Hloop matchedTasks ([], [])) as (Hnd & Hsame & Hkeys); [constructor | done |].
split; [done|]. split; [done|]. intros path. rewrite Hkeys. split.
- by intros [?%elem_of_nil|?].
- by right.
Qed.

(** The values after the first loop are empty entries. *)
Lemma initImpacts_empty (matchedTasks : list MatchedTask) :
  Forall (λ entry, fi_direct entry.2 = [] ∧ fi_indirect entry.2 = [])
         (initImpacts matchedTasks).1
  ∧ Forall (λ entry, cs_direct entry.2 = [] ∧ cs_indirect entry.2 = []
                     ∧ cs_changedColumns entry.2 = [])
           (initImpacts matchedTasks).2.
Proof.
unfold initImpacts.
apply (foldl_invariant
         (λ state : ImpactState,
            Forall (λ entry, fi_direct entry.2 = [] ∧ fi_indirect entry.2 = []) state.1
            ∧ Forall (λ entry, cs_direct entry.2 = [] ∧ cs_indirect entry.2 = []
                               ∧ cs_changedColumns entry.2 = []) state.2)).
- by split; constructor.
- intros state task _ [Hfiles Hcolumns]. simpl.
  rewrite Forall_forall in Hfiles. rewrite Forall_forall in Hcolumns.
  split; apply Forall_forall; intros entry [->|Hold]%elem_of_objSet; auto.
Qed.
End LoopFacts.

(** ** The impact loop: what ends up under a file *)

Section LoopResults.
Context `{LineageApi}.
Variable changedColumns : ChangedColumns.

Lemma foldl_assetStep (tasks : list MatchedTask) (impacts : FileImpactSet) :
  let final := foldl (λ v task, assetStep task v) impacts tasks in
  fi_direct final = fi_direct impacts ++ (tasks ≫= directBatch)
  ∧ fi_indirect final = fi_indirect impacts ++ (tasks ≫= indirectBatch)
  ∧ fi_taskName final = fi_taskName impacts.
Proof.
revert impacts. induction tasks as [|task tasks IH]; intros impacts; simpl.
- by rewrite !app_nil_r.
- destruct (IH (assetStep task impacts)) as (-> & -> & ->).
  unfold assetStep, pushImpacts, directBatch, indirectBatch. simpl.
  by rewrite <- !app_assoc.
Qed.

(** A task whose file path is the prototype object has no changed column:
    no column is attributed to an object. *)
Lemma taskChangedColumns_prototype :
  taskChangedColumns changedColumns ObjectPrototype = [].
Proof.
unfold taskChangedColumns.
by rewrite !filter_none by (apply Forall_forall; by intros col _).
Qed.

(** Steps that change nothing can be left out of a loop. *)
Lemma foldl_filter {V X : Type} (f : V → X → V) (P : X → Prop) `{∀ x, Decision (P x)}
    (l : list X) (v : V) :
  (∀ x v', x ∈ l → ¬ P x → f v' x = v') → foldl f v l = foldl f v (filter P l).
Proof.
revert v. induction l as [|x l IH]; intros v Hskip; [done|]. simpl.
destruct (decide (P x)) as [Hx|Hx].
- rewrite filter_cons_True by done. simpl. apply IH. intros y v' Hy. apply Hskip. by right.
- rewrite filter_cons_False by done. rewrite Hskip by (done || by left).
  apply IH. intros y v' Hy. apply Hskip. by right.
Qed.

(** On the entry of a key the column steps of the tasks with that key
    are those of the tasks whose file path is the changed file of that
    name. *)
Lemma foldl_columnStep_own (matchedTasks : list MatchedTask) (path : string)
    (impacts : ColumnImpactSet) :
  foldl (λ v task, columnStep changedColumns task v) impacts
        (tasksOfFile path matchedTasks)
  = foldl (λ v task, columnStep changedColumns task v) impacts
          (tasksOfChangedFile path matchedTasks).
Proof.
rewrite (foldl_filter _ (λ task, mt_filePath task = ChangedFile path)).
- f_equal. unfold tasksOfFile, tasksOfChangedFile. rewrite list_filter_filter.
  apply list_filter_iff. intros task. split; [by intros [? _]|].
  intros Hpath. split; [done|]. by rewrite Hpath.
- intros task v [Hkey _]%list_elem_of_filter Hother. unfold columnStep.
  destruct (mt_filePath task) as [own|]; simpl in Hkey.
  + by subst own.
  + by rewrite taskChangedColumns_prototype.
Qed.

Lemma foldl_columnStep_none (tasks : list MatchedTask) (filePath : FilePath)
    (impacts : ColumnImpactSet) :
  Forall (λ task, mt_filePath task = filePath) tasks →
  taskChangedColumns changedColumns filePath = [] →
  foldl (λ v task, columnStep changedColumns task v) impacts tasks = impacts.
Proof.
intros Htasks Hnone. revert impacts.
induction Htasks as [|task tasks Hpath _ IH]; intros impacts; [done|]. simpl.
unfold columnStep at 2. rewrite Hpath, Hnone. apply IH.
Qed.

Lemma foldl_columnStep_some (tasks : list MatchedTask) (filePath : FilePath)
    (impacts : ColumnImpactSet) :
  Forall (λ task, mt_filePath task = filePath) tasks →
  taskChangedColumns changedColumns filePath ≠ [] →
  let changed := taskChangedColumns changedColumns filePath in
  let final := foldl (λ v task, columnStep changedColumns task v) impacts tasks in
  cs_direct final = cs_direct impacts ++ (tasks ≫= columnBatch changed true)
  ∧ cs_indirect final = cs_indirect impacts ++ (tasks ≫= columnBatch changed false)
  ∧ (tasks ≠ [] → cs_changedColumns final = changed).
Proof.
intros Htasks Hsome changed. revert impacts.
induction Htasks as [|task tasks Hpath _ IH]; intros impacts; simpl.
- by rewrite !app_nil_r.
- destruct (IH (columnStep changedColumns task impacts)) as (-> & -> & Hchanged).
  unfold columnStep at 1 2 3. rewrite Hpath. fold changed.
  destruct changed as [|value rest] eqn:Hlist; [done|].
  unfold pushColumnImpacts, columnBatch. simpl. rewrite <- !app_assoc.
  split; [done|]. split; [done|]. intros _.
  destruct tasks as [|next tasks]; [|by apply Hchanged].
  simpl. unfold columnStep. rewrite Hpath. fold changed. by rewrite Hlist.
Qed.

Lemma tasksOfChangedFile_path (file : string) (matchedTasks : list MatchedTask) :
  Forall (λ task, mt_filePath task = ChangedFile file)
         (tasksOfChangedFile file matchedTasks).
Proof. apply Forall_forall. by intros task [? _]%list_elem_of_filter. Qed.

Lemma collected_keys (matchedTasks : list MatchedTask) :
  (collectImpacts changedColumns matchedTasks).1.*1 = (initImpacts matchedTasks).1.*1
  ∧ (collectImpacts changedColumns matchedTasks).2.*1 = (initImpacts matchedTasks).2.*1.
Proof.
rewrite collectImpacts_steps, !foldl_objUpdate. simpl.
rewrite <- !list_fmap_compose. split; by apply list_fmap_ext.
Qed.

(** X24. After both loops and the reconciliation, the asset impacts and the
    column impacts have the same keys: the file paths of the matched
    tasks, as property keys, each exactly once. *)
Theorem impacts_per_file (matchedTasks : list MatchedTask) :
  let state := reconciledImpacts changedColumns matchedTasks in
  NoDup state.1.*1
  ∧ state.2.*1 = state.1.*1
  ∧ ∀ path, path ∈ state.1.*1
            ↔ ∃ task, task ∈ matchedTasks ∧ filePathKey (mt_filePath task) = path.
Proof.
unfold reconciledImpacts, reconcileFileImpacts, reconcileColumnImpacts. simpl.
rewrite !onEntries_keys.
destruct (collected_keys matchedTasks) as [-> ->].
apply initImpacts_keys.
Qed.

(** X25. The reconciled asset impacts of a file are a function of the
    responses for the tasks attached to that file, and of nothing else:
    its direct list is the deduplicated concatenation of their filtered
    direct batches, in task order, and its indirect list the deduplicated
    concatenation of their filtered indirect batches without the keys of
    the direct ones. *)
Theorem file_impacts_from_own_tasks (matchedTasks : list MatchedTask) :
  Forall (λ entry,
            let tasks := tasksOfFile entry.1 matchedTasks in
            fi_direct entry.2 = dedup (tasks ≫= directBatch)
            ∧ fi_indirect entry.2
              = dedup (withoutDirect uniqueKey (tasks ≫= directBatch)
                         (tasks ≫= indirectBatch)))
         (reconciledImpacts changedColumns matchedTasks).1.
Proof.
unfold reconciledImpacts, reconcileFileImpacts. simpl.
rewrite onEntries_compose, collectImpacts_steps, foldl_objUpdate. simpl.
unfold onEntries. apply Forall_fmap, Forall_fmap.
destruct (initImpacts_empty matchedTasks) as [Hempty _].
eapply Forall_impl; [exact Hempty|]. intros [path impacts] [Hdirect Hindirect]. simpl in *.
destruct (foldl_assetStep
            (filter (λ task, filePathKey (mt_filePath task) = path) matchedTasks) impacts)
  as (Hd & Hi & _).
unfold tasksOfFile. by rewrite Hd, Hi, Hdirect, Hindirect.
Qed.

(** X26. The column impacts of a file without changed columns stay empty.
    For a file with changed columns, the entry records these columns, and
    its lists are built like the asset lists, from the column batches of
    the tasks attached to the file, each computed with the changed columns
    of that file.  The tasks attached to a file are those whose file path
    is that changed file; every entry has such a task, except the entry
    of tasks whose file path is the prototype object, which has no changed
    column and so records none. *)
Theorem column_impacts_from_own_tasks (matchedTasks : list MatchedTask) :
  Forall (λ entry,
            let tasks := tasksOfChangedFile entry.1 matchedTasks in
            let changed := taskChangedColumns changedColumns (ChangedFile entry.1) in
            (tasks ≠ [] → cs_changedColumns entry.2 = changed)
            ∧ (tasks = [] →
               entry.1 = filePathKey ObjectPrototype ∧ cs_changedColumns entry.2 = [])
            ∧ (changed = [] → cs_direct entry.2 = [] ∧ cs_indirect entry.2 = [])
            ∧ (changed ≠ [] →
               cs_direct entry.2 = columnDedup (tasks ≫= columnBatch changed true)
               ∧ cs_indirect entry.2
                 = columnDedup
                     (withoutDirect columnUniqueKey (tasks ≫= columnBatch changed true)
                        (tasks ≫= columnBatch changed false))))
         (reconciledImpacts changedColumns matchedTasks).2.
Proof.
unfold reconciledImpacts, reconcileColumnImpacts. simpl.
rewrite onEntries_compose, collectImpacts_steps, !foldl_objUpdate. simpl.
unfold onEntries. apply Forall_fmap, Forall_fmap.
destruct (initImpacts_empty matchedTasks) as [_ Hempty].
destruct (initImpacts_keys matchedTasks) as (_ & Hsame & Hkeys).
rewrite Forall_forall in Hempty. apply Forall_forall.
intros [path impacts] Hentry. destruct (Hempty _ Hentry) as (Hd & Hi & Hc). simpl in *.
assert (tasksOfChangedFile path matchedTasks = [] → path = filePathKey ObjectPrototype)
  as Hproto.
{ assert (path ∈ (initImpacts matchedTasks).1.*1) as Hpath.
  { rewrite <- Hsame. by apply (list_elem_of_fmap_2 fst _ (path, impacts)). }
  apply Hkeys in Hpath as (task & Htask & Hpath). intros Hnil.
  destruct (mt_filePath task) as [own|] eqn:Hown; simpl in Hpath; [|done].
  assert (task ∈ tasksOfChangedFile path matchedTasks) as Hin.
  { apply list_elem_of_filter. split; [by rewrite Hown, Hpath | done]. }
  rewrite Hnil in Hin. by apply elem_of_nil in Hin. }
fold (tasksOfFile path matchedTasks). rewrite foldl_columnStep_own.
destruct (decide (taskChangedColumns changedColumns (ChangedFile path) = [])) as [Hnone|Hsome].
- rewrite (foldl_columnStep_none _ (ChangedFile path))
    by (apply tasksOfChangedFile_path || done).
  rewrite Hnone, Hd, Hi, Hc. split; [done|]. split; [|done].
  intros Hnil. by split; [apply Hproto|].
- destruct (foldl_columnStep_some (tasksOfChangedFile path matchedTasks) (ChangedFile path)
              impacts (tasksOfChangedFile_path _ _) Hsome)
    as (Hdirect & Hindirect & Hchanged).
  rewrite Hdirect, Hindirect, Hd, Hi. simpl. split; [by apply Hchanged|].
  split; [|done]. intros Hnil. split; [by apply Hproto|]. by rewrite Hnil.
Qed.
End LoopResults.

(** ** The connector filter *)

(** X27. A task passes the connector filter exactly when its connection
    type, lower-cased, contains [coalesce_pipeline]; the test for equality
    adds nothing, and a task without a connection type does not pass. *)
Theorem isCoalesceTask_contains (task : Task) :
  (isCoalesceTask task = true
   ↔ Substring "coalesce_pipeline" (toLowerCase (orEmpty (t_connection_type task))))
  ∧ (t_connection_type task = None → isCoalesceTask task = false).
Proof.
unfold isCoalesceTask. split.
- rewrite orb_true_iff, includes_spec, eqb_true_iff. split; [|by right].
  intros [->|Hsub]; [|done]. by exists "", "".
- by intros ->.
Qed.
